(** * RKIS1 polls application: models, views and forms

    A shallow embedding of [polls/models.py], [polls/views.py],
    [polls/forms.py] and [polls/urls.py], followed by the properties of the
    voting engine, the question lifecycle, the results page, question
    creation and profile deletion.

    Conventions of the embedding:
    - the relational store is a record of tables, each table the list of its
      rows in insertion (rowid) order;
    - a view is a function of the store, the clock reading and the request,
      returning the store afterwards, the queued messages and the response;
    - a Python exception is a value of [exception]; code that can raise
      returns a [result]. *)

From Stdlib Require Import ZArith NArith List Bool String Ascii Lia.
From Stdlib Require Import Floats.SpecFloat.
From Stdlib Require Import Sorted Permutation.
Import ListNotations.
Open Scope Z_scope.

(** ** Exceptions *)

Inductive exception : Type :=
| OverflowError
| ZeroDivisionError
| ValueError
| KeyError
| DoesNotExist
| MultipleObjectsReturned
| IntegrityError
| OperationalError
| NoReverseMatch.

Inductive result (A : Type) : Type :=
| Ok (a : A)
| Raise (e : exception).

Arguments Ok {A} a.
Arguments Raise {A} e.

Definition bind {A B : Type} (c : result A) (k : A -> result B) : result B :=
  match c with
  | Ok a => k a
  | Raise e => Raise e
  end.

Notation "x <- c ;; k" := (bind c (fun x => k))
  (at level 61, c at next level, right associativity).

(** ** Python [str]: a sequence of Unicode code points *)

Definition pystr : Type := list N.

Definition lit (s : string) : pystr := map N_of_ascii (list_ascii_of_string s).

(** [str.isspace] on one code point (the characters [str.strip] removes). *)
Definition isspace (c : N) : bool :=
  (((9 <=? c) && (c <=? 13)) || ((28 <=? c) && (c <=? 32))
   || (c =? 133) || (c =? 160) || (c =? 5760)
   || ((8192 <=? c) && (c <=? 8202))
   || (c =? 8232) || (c =? 8233) || (c =? 8239) || (c =? 8287)
   || (c =? 12288))%N.

Fixpoint lstrip (s : pystr) : pystr :=
  match s with
  | c :: rest => if isspace c then lstrip rest else s
  | [] => []
  end.

Definition rstrip (s : pystr) : pystr := rev (lstrip (rev s)).

Definition strip (s : pystr) : pystr := rstrip (lstrip s).

(** Truth value of a string: non-empty. *)
Definition truthy (s : pystr) : bool :=
  match s with
  | [] => false
  | _ :: _ => true
  end.

(** ** [datetime] and [timedelta]

    A [datetime] is the number of microseconds since 0001-01-01T00:00:00
    (UTC); the type ranges over [0 .. datetime_max], i.e. up to
    9999-12-31T23:59:59.999999.  A [timedelta] is a number of microseconds. *)

Definition us_per_second : Z := 1000000.
Definition us_per_day : Z := 86400 * us_per_second.

(** [date.max.toordinal() = 3652059] days, one microsecond short. *)
Definition datetime_max : Z := 3652059 * us_per_day - 1.

(** [datetime.timedelta(days=d)]. *)
Definition timedelta_days (d : Z) : result Z :=
  if Z.abs d <=? 999999999 then Ok (d * us_per_day) else Raise OverflowError.

(** [t + delta] on a [datetime]: raises when the sum leaves the range. *)
Definition datetime_add (t delta : Z) : result Z :=
  let r := t + delta in
  if (0 <=? r) && (r <=? datetime_max) then Ok r else Raise OverflowError.

(** ** models.py *)

Record User : Type := {
  User_id : Z;
  username : pystr;
  is_staff : bool
}.

Record UserProfile : Type := {
  UserProfile_id : Z;
  UserProfile_user : Z;          (* OneToOneField(User, on_delete=CASCADE) *)
  name : pystr;
  avatar : option pystr
}.

Record Question : Type := {
  Question_id : Z;
  question_text : pystr;
  pub_date : Z;                  (* DateTimeField(auto_now_add=True) *)
  image : option pystr;
  lifespan_days : N              (* PositiveIntegerField(default=7) *)
}.

Record Choice : Type := {
  Choice_id : Z;
  Choice_question : Z;           (* ForeignKey(Question, on_delete=CASCADE) *)
  choice_text : pystr;
  votes : Z                      (* IntegerField(default=0) *)
}.

Record Vote : Type := {
  Vote_id : Z;
  Vote_user : Z;                 (* ForeignKey(User, on_delete=CASCADE) *)
  Vote_question : Z;             (* ForeignKey(Question, on_delete=CASCADE) *)
  Vote_choice : Z                (* ForeignKey(Choice, on_delete=CASCADE) *)
}.

(** [Question.is_active], with the reading of [timezone.now()] passed in. *)
Definition is_active (self : Question) (now : Z) : result bool :=
  delta <- timedelta_days (Z.of_N (lifespan_days self)) ;;
  expiry <- datetime_add (pub_date self) delta ;;
  Ok (now <=? expiry).

(** ** The store *)

Record DB : Type := {
  auth_user : list User;
  polls_userprofile : list UserProfile;
  polls_question : list Question;
  polls_choice : list Choice;
  polls_vote : list Vote
}.

(** A fresh primary key: above every key of the table.  (The key of a
    deleted last row is given again; an AUTOINCREMENT column would not.) *)
Definition next_id (ids : list Z) : Z := 1 + fold_right Z.max 0 ids.

Arguments next_id ids : simpl never.

(** [QuerySet.get]: exactly one row, or an exception. *)
Definition objects_get {A : Type} (rows : list A) : result A :=
  match rows with
  | [] => Raise DoesNotExist
  | [row] => Ok row
  | _ :: _ :: _ => Raise MultipleObjectsReturned
  end.

(** [question.choice_set.all()]: the question's choices; [Choice] declares
    no ordering, the rows come in rowid order. *)
Definition choice_set_all (db : DB) (question : Question) : list Choice :=
  filter (fun c => Choice_question c =? Question_id question) (polls_choice db).

(** [question.choice_set.get(pk=pk)]. *)
Definition choice_set_get (db : DB) (question : Question) (pk : Z) : result Choice :=
  objects_get (filter (fun c => Choice_id c =? pk) (choice_set_all db question)).

(** [Vote.objects.filter(user=user, question=question)]. *)
Definition Vote_objects_filter (db : DB) (user : User) (question : Question) : list Vote :=
  filter (fun v => (Vote_user v =? User_id user) && (Vote_question v =? Question_id question))
         (polls_vote db).

(** [.exists()]. *)
Definition exists_ {A : Type} (rows : list A) : bool :=
  match rows with
  | [] => false
  | _ :: _ => true
  end.

(** [Vote.objects.create(user=, question=, choice=)]: one INSERT.  The table
    carries [unique_together = ('user', 'question')]: the engine refuses the
    row with [IntegrityError] when a row with the same pair is present. *)
Definition Vote_objects_create (db : DB) (user : User) (question : Question)
    (choice : Choice) : result DB :=
  if exists_ (Vote_objects_filter db user question) then Raise IntegrityError
  else
    let new_vote := {| Vote_id := next_id (map Vote_id (polls_vote db));
                       Vote_user := User_id user;
                       Vote_question := Question_id question;
                       Vote_choice := Choice_id choice |} in
    Ok {| auth_user := auth_user db;
          polls_userprofile := polls_userprofile db;
          polls_question := polls_question db;
          polls_choice := polls_choice db;
          polls_vote := polls_vote db ++ [new_vote] |}.

(** What the storage engine answers to a write: it is carried out, or it
    fails with an exception (a constraint, a locked database, a lost
    connection). *)
Inductive write_outcome : Type :=
| Written
| Fails (e : exception).

(** [choice.save()] on a row read from the table: one UPDATE of all columns
    [WHERE id = choice.id]. *)
Definition Choice_save (db : DB) (choice : Choice) (w : write_outcome) : result DB :=
  match w with
  | Fails e => Raise e
  | Written =>
    Ok {| auth_user := auth_user db;
          polls_userprofile := polls_userprofile db;
          polls_question := polls_question db;
          polls_choice :=
            map (fun row => if Choice_id row =? Choice_id choice then choice else row)
                (polls_choice db);
          polls_vote := polls_vote db |}
  end.

(** [selected_choice.votes += 1] on the instance in memory. *)
Definition add_vote (choice : Choice) : Choice :=
  {| Choice_id := Choice_id choice;
     Choice_question := Choice_question choice;
     choice_text := choice_text choice;
     votes := votes choice + 1 |}.

(** [profile.delete()]: DELETE of the row with the profile's key (no model
    references [UserProfile]). *)
Definition UserProfile_delete (db : DB) (profile : UserProfile) : DB :=
  {| auth_user := auth_user db;
     polls_userprofile :=
       filter (fun p => negb (UserProfile_id p =? UserProfile_id profile))
              (polls_userprofile db);
     polls_question := polls_question db;
     polls_choice := polls_choice db;
     polls_vote := polls_vote db |}.

(** [user.delete()]: the rows that reference the user with
    [on_delete=CASCADE] ([UserProfile.user], [Vote.user]) go first, then the
    user's row. *)
Definition User_delete (db : DB) (user : User) : DB :=
  {| auth_user := filter (fun u => negb (User_id u =? User_id user)) (auth_user db);
     polls_userprofile :=
       filter (fun p => negb (UserProfile_user p =? User_id user)) (polls_userprofile db);
     polls_question := polls_question db;
     polls_choice := polls_choice db;
     polls_vote := filter (fun v => negb (Vote_user v =? User_id user)) (polls_vote db) |}.

(** [user.profile]: the reverse side of the one-to-one field. *)
Definition user_profile (db : DB) (user : User) : result UserProfile :=
  objects_get (filter (fun p => UserProfile_user p =? User_id user) (polls_userprofile db)).

(** ** The query of the listing, as SQLite evaluates it

    [datetime(pub_date, '+' || lifespan_days || ' days')]: the stored text is
    parsed to Julian-day milliseconds (rounded to the nearest millisecond),
    the days are added, and the value is printed as 'YYYY-MM-DD HH:MM:SS',
    the fraction dropped.  Outside SQLite's date range (after
    9999-12-31 23:59:59.999) the function yields NULL.  The text is
    represented by its number of whole seconds since 0001-01-01. *)

Definition ms_per_day : Z := 86400000.

(** Julian-day milliseconds of 0001-01-01T00:00:00. *)
Definition iJD_epoch : Z := 148731163200000.

Definition iJD_max : Z := 464269060799999.

Definition sqlite_datetime (t : Z) (days : N) : option Z :=
  let ms := (t + 500) / 1000 + Z.of_N days * ms_per_day in
  let iJD := ms + iJD_epoch in
  if (0 <=? iJD) && (iJD <=? iJD_max) then Some (ms / 1000) else None.

(** Comparison of texts under the BINARY collation, left operand
    'YYYY-MM-DD HH:MM:SS' (whole second [s]), right operand
    [now.strftime('%Y-%m-%d %H:%M:%S.%f')]: the first 19 characters decide,
    and when they agree the left text is a proper prefix of the right one,
    hence smaller. *)
Definition text_gt (s : Z) (now : Z) : bool := s >? now / us_per_second.

Definition text_le (s : Z) (now : Z) : bool := s <=? now / us_per_second.

(** A WHERE clause selects a row when its condition is true; NULL is not. *)
Definition where_ (cond : option bool) : bool :=
  match cond with
  | Some b => b
  | None => false
  end.

(** [order_by('-pub_date')]: latest first (rows with equal dates keep their
    table order). *)
Fixpoint insert_desc (q : Question) (sorted : list Question) : list Question :=
  match sorted with
  | [] => [q]
  | q' :: rest =>
    if pub_date q' <=? pub_date q then q :: sorted else q' :: insert_desc q rest
  end.

Definition order_by_pub_date_desc (rows : list Question) : list Question :=
  fold_right insert_desc [] rows.

(** ** Python [float]: IEEE 754 binary64

    Values are [spec_float]s with 53 bits of precision; every operation is
    the correctly rounded one (round to nearest, ties to even). *)

Definition float : Type := spec_float.

(** [float(n)] for an int. *)
Definition int_to_float (n : Z) : float := binary_normalize 53 1024 n 0 false.

(** The double nearest to [a / b], for [a, b > 0], with sign [s]. *)
Definition correctly_rounded_quotient (s : bool) (a b : Z) : float :=
  let '(q, e, l) := SFdiv_core_binary 53 1024 a 0 b 0 in
  binary_round_aux 53 1024 s q e l.

(** [a / b] on ints (true division).  The columns that reach it hold 64-bit
    values, whose quotients are within the range of a double. *)
Definition int_truediv (a b : Z) : result float :=
  if b =? 0 then Raise ZeroDivisionError
  else if a =? 0 then Ok (S754_zero (b <? 0))
  else Ok (correctly_rounded_quotient (xorb (a <? 0) (b <? 0)) (Z.abs a) (Z.abs b)).

(** [x * n] for a float and an int. *)
Definition float_mul (x : float) (n : Z) : float := SFmul 53 1024 x (int_to_float n).

(** [p / q] rounded to the nearest integer, ties to even ([p >= 0], [q > 0]). *)
Definition round_half_even (p q : Z) : Z :=
  let d := p / q in
  match (2 * (p mod q)) ?= q with
  | Lt => d
  | Gt => d + 1
  | Eq => if Z.even d then d else d + 1
  end.

(** [round(x, ndigits)]: the exact value of [x] is rounded to [ndigits]
    decimals, and the decimal is read back as the nearest double. *)
Definition float_round (x : float) (ndigits : N) : float :=
  match x with
  | S754_finite s m e =>
    let scale := 10 ^ Z.of_N ndigits in
    let n := match e with
             | Zneg k => round_half_even (Zpos m * scale) (2 ^ Zpos k)
             | _ => Zpos m * scale * 2 ^ e
             end in
    if n =? 0 then S754_zero s else correctly_rounded_quotient s n scale
  | _ => x
  end.

(** An [int] or a [float]. *)
Inductive number : Type :=
| Int (z : Z)
| Float (x : float).

(** ** Requests, messages, responses *)

Inductive http_method : Type := GET | POST.

(** The value of a POST field that names a primary key. *)
Inductive post_value : Type :=
| Absent
| NotANumber
| Number (n : Z).

Record HttpRequest : Type := {
  method : http_method;
  user : option User;            (* [None]: AnonymousUser *)
  POST_choice : post_value
}.

Inductive level : Type := SUCCESS | WARNING | ERROR.

(** The texts passed to [messages.*]. *)
Inductive message : Type :=
| voting_is_over            (* vote: the poll is closed *)
| vote_counted              (* vote: the vote was recorded *)
| already_voted             (* vote: IntegrityError *)
| profile_deleted
| question_created (text : pystr).

(** ** urls.py *)

Definition urlpatterns : list string :=
  ["polls:index"; "polls:detail"; "polls:results"; "polls:vote";
   "polls:register"; "polls:profile"; "polls:profile_edit";
   "polls:profile_delete"; "polls:logout"; "polls:create_question"]%string.

(** [reverse(viewname, args)]: the route of that name, or NoReverseMatch. *)
Definition reverse (viewname : string) (args : list Z) : result (string * list Z) :=
  if existsb (String.eqb viewname) urlpatterns then Ok (viewname, args)
  else Raise NoReverseMatch.

Inductive HttpResponse : Type :=
| HttpResponseRedirect (url : string * list Z)
| redirect_to_login                              (* [login_required] *)
| Http404
| render_index (latest_question_list : list Question)
| render_detail (question : Question) (error_message : bool) (has_voted : bool)
| render_results (question : Question) (results : list (Choice * number))
| render_question_create
| render_profile (user : User) (expired_questions : option (list Question))
| render_profile_delete.

(** What a view leaves behind: the store, the messages it queued, and the
    response or the exception that escaped it. *)
Record Outcome : Type := {
  db_after : DB;
  queued : list (level * message);
  response : result HttpResponse
}.

(** [redirect(viewname, *args)]. *)
Definition redirect (viewname : string) (args : list Z) : result HttpResponse :=
  url <- reverse viewname args ;;
  Ok (HttpResponseRedirect url).

(** ** views.py *)

(** The WHERE clause of [IndexView.get_queryset]:
    [datetime(pub_date, '+' || lifespan_days || ' days') > %s]. *)
Definition index_where (now : Z) (q : Question) : bool :=
  where_ (option_map (fun s => text_gt s now)
                     (sqlite_datetime (pub_date q) (lifespan_days q))).

(** [IndexView.get_queryset]. *)
Definition IndexView_get_queryset (db : DB) (now : Z) : list Question :=
  order_by_pub_date_desc (filter (index_where now) (polls_question db)).

Definition IndexView (db : DB) (now : Z) : Outcome :=
  {| db_after := db; queued := [];
     response := Ok (render_index (IndexView_get_queryset db now)) |}.

(** [DetailView.get_queryset]. *)
Definition DetailView_get_queryset (db : DB) : list Question := polls_question db.

(** [DetailView.get_context_data]: the [has_voted] entry. *)
Definition DetailView_get_context_data (db : DB) (request : HttpRequest)
    (object : Question) : bool :=
  match user request with
  | Some u => exists_ (Vote_objects_filter db u object)
  | None => false
  end.

(** [get_object_or_404(queryset, pk=pk)]: [queryset.get(pk=pk)], with
    [DoesNotExist] turned into [Http404] (here [None]). *)
Definition get_object_or_404 (queryset : list Question) (pk : Z) : result (option Question) :=
  match objects_get (filter (fun q => Question_id q =? pk) queryset) with
  | Ok q => Ok (Some q)
  | Raise DoesNotExist => Ok None
  | Raise e => Raise e
  end.

(** [SingleObjectMixin.get_object]: the same lookup on the view's queryset. *)
Definition get_object (queryset : list Question) (pk : Z) : result (option Question) :=
  get_object_or_404 queryset pk.

Definition DetailView (db : DB) (request : HttpRequest) (pk : Z) : Outcome :=
  {| db_after := db; queued := [];
     response :=
       o <- get_object (DetailView_get_queryset db) pk ;;
       match o with
       | None => Ok Http404
       | Some object =>
         Ok (render_detail object false (DetailView_get_context_data db request object))
       end |}.

(** [sum(...)] over ints. *)
Definition sum (xs : list Z) : Z := fold_left Z.add xs 0.

(** The loop of [ResultsView.get_context_data]: [results] is the list built
    so far. *)
Fixpoint results_loop (total_votes : Z) (choices : list Choice)
    (results : list (Choice * number)) : result (list (Choice * number)) :=
  match choices with
  | [] => Ok results
  | choice :: rest =>
    percent <- (if total_votes >? 0
                then ratio <- int_truediv (votes choice) total_votes ;;
                     Ok (Float (float_round (float_mul ratio 100) 1))
                else Ok (Int 0)) ;;
    results_loop total_votes rest (results ++ [(choice, percent)])
  end.

(** [ResultsView.get_context_data]: the [results] entry. *)
Definition ResultsView_get_context_data (db : DB) (object : Question)
    : result (list (Choice * number)) :=
  let total_votes := sum (map votes (choice_set_all db object)) in
  results_loop total_votes (choice_set_all db object) [].

(** [ResultsView]: [model = Question], so the queryset is every question. *)
Definition ResultsView (db : DB) (pk : Z) : Outcome :=
  {| db_after := db; queued := [];
     response :=
       o <- get_object (polls_question db) pk ;;
       match o with
       | None => Ok Http404
       | Some object =>
         results <- ResultsView_get_context_data db object ;;
         Ok (render_results object results)
       end |}.

(** The choice named by [request.POST['choice']], looked up in the
    question's choice set. *)
Definition selected_choice_of (db : DB) (question : Question)
    (request : HttpRequest) : result Choice :=
  match POST_choice request with
  | Absent => Raise KeyError
  | NotANumber => Raise ValueError
  | Number pk => choice_set_get db question pk
  end.

(** [vote(request, question_id)].  [w] is the engine's answer to the UPDATE
    issued by [selected_choice.save()].  There is no transaction around the
    two writes: each statement is committed when it is carried out. *)
Definition vote (db : DB) (now : Z) (request : HttpRequest) (question_id : Z)
    (w : write_outcome) : Outcome :=
  match get_object_or_404 (polls_question db) question_id with
  | Raise e => {| db_after := db; queued := []; response := Raise e |}
  | Ok None => {| db_after := db; queued := []; response := Ok Http404 |}
  | Ok (Some question) =>
    match is_active question now with
    | Raise e => {| db_after := db; queued := []; response := Raise e |}
    | Ok false =>
      {| db_after := db; queued := [(ERROR, voting_is_over)];
         response := redirect "polls:index" [] |}
    | Ok true =>
      match user request with
      | None =>
        {| db_after := db; queued := []; response := redirect "polls:login" [] |}
      | Some u =>
        match selected_choice_of db question request with
        | Raise KeyError | Raise DoesNotExist =>
          {| db_after := db; queued := [];
             response :=
               Ok (render_detail question true
                                 (exists_ (Vote_objects_filter db u question))) |}
        | Raise e => {| db_after := db; queued := []; response := Raise e |}
        | Ok selected_choice =>
          match Vote_objects_create db u question selected_choice with
          | Raise IntegrityError =>
            {| db_after := db; queued := [(WARNING, already_voted)];
               response := redirect "polls:results" [Question_id question] |}
          | Raise e => {| db_after := db; queued := []; response := Raise e |}
          | Ok db1 =>
            match Choice_save db1 (add_vote selected_choice) w with
            | Raise IntegrityError =>
              {| db_after := db1; queued := [(WARNING, already_voted)];
                 response := redirect "polls:results" [Question_id question] |}
            | Raise e => {| db_after := db1; queued := []; response := Raise e |}
            | Ok db2 =>
              {| db_after := db2; queued := [(SUCCESS, vote_counted)];
                 response :=
                   url <- reverse "polls:results" [Question_id question] ;;
                   Ok (HttpResponseRedirect url) |}
            end
          end
        end
      end
    end
  end.

(** The WHERE clause of [profile]:
    [datetime(pub_date, '+' || lifespan_days || ' days') <= %s]. *)
Definition expired_where (now : Z) (q : Question) : bool :=
  where_ (option_map (fun s => text_le s now)
                     (sqlite_datetime (pub_date q) (lifespan_days q))).

(** [profile(request)]: for staff, the expired questions. *)
Definition expired_questions (db : DB) (now : Z) : list Question :=
  order_by_pub_date_desc (filter (expired_where now) (polls_question db)).

Definition profile (db : DB) (now : Z) (request : HttpRequest) : Outcome :=
  {| db_after := db; queued := [];
     response :=
       match user request with
       | None => Ok redirect_to_login
       | Some u =>
         Ok (render_profile u (if is_staff u then Some (expired_questions db now) else None))
       end |}.

(** [profile_delete(request)]. *)
Definition profile_delete (db : DB) (request : HttpRequest) : Outcome :=
  match user request with
  | None => {| db_after := db; queued := []; response := Ok redirect_to_login |}
  | Some u =>
    match method request with
    | POST =>
      let after_try : result DB :=
        match user_profile db u with
        | Ok p => Ok (UserProfile_delete db p)
        | Raise DoesNotExist => Ok db
        | Raise e => Raise e
        end in
      match after_try with
      | Raise e => {| db_after := db; queued := []; response := Raise e |}
      | Ok db1 =>
        {| db_after := User_delete db1 u;
           queued := [(SUCCESS, profile_deleted)];
           response := redirect "polls:index" [] |}
      end
    | GET => {| db_after := db; queued := []; response := Ok render_profile_delete |}
    end
  end.

(** ** forms.py *)

(** [forms.CharField(max_length=, required=).clean(value)]: the value is
    stripped; an empty value is an error only for a required field; the
    validators (length, no NUL character) run on non-empty values.
    [None] is a ValidationError. *)
Definition CharField_clean (max_length : Z) (required : bool) (value : pystr)
    : option pystr :=
  match strip value with
  | [] => if required then None else Some []
  | c :: rest =>
    if (Z.of_nat (List.length (c :: rest)) <=? max_length)
       && negb (existsb (N.eqb 0) (c :: rest))
    then Some (c :: rest) else None
  end.

(** The form field of [lifespan_days]: required, an integer, at least 0.
    (The greatest value that the column takes, far above the lifespans
    that [datetime] can hold, is not modelled.) *)
Definition lifespan_days_clean (value : option Z) : option N :=
  match value with
  | Some n => if 0 <=? n then Some (Z.to_N n) else None
  | None => None
  end.

(** A bound [QuestionCreateForm]: the submitted values ([data_choice*] is
    empty when the field is not submitted; [data_lifespan_days] is [None]
    when it is blank or not an integer). *)
Record QuestionCreateForm : Type := {
  data_question_text : pystr;
  data_image : option pystr;
  data_lifespan_days : option Z;
  data_choice1 : pystr;
  data_choice2 : pystr;
  data_choice3 : pystr
}.

Record cleaned_data : Type := {
  cleaned_question_text : pystr;
  cleaned_image : option pystr;
  cleaned_lifespan_days : N;
  cleaned_choice1 : pystr;
  cleaned_choice2 : pystr;
  cleaned_choice3 : pystr
}.

(** [form.full_clean()]: the cleaned data of a valid form. *)
Definition full_clean (form : QuestionCreateForm) : option cleaned_data :=
  match CharField_clean 200 true (data_question_text form),
        lifespan_days_clean (data_lifespan_days form),
        CharField_clean 200 false (data_choice1 form),
        CharField_clean 200 false (data_choice2 form),
        CharField_clean 200 false (data_choice3 form) with
  | Some text, Some days, Some c1, Some c2, Some c3 =>
    Some {| cleaned_question_text := text;
            cleaned_image := data_image form;
            cleaned_lifespan_days := days;
            cleaned_choice1 := c1;
            cleaned_choice2 := c2;
            cleaned_choice3 := c3 |}
  | _, _, _, _, _ => None
  end.

Definition is_valid (form : QuestionCreateForm) : bool :=
  match full_clean form with
  | Some _ => true
  | None => false
  end.

(** [self.cleaned_data.get(f'choice{i}')]. *)
Definition cleaned_data_get_choice (cd : cleaned_data) (i : Z) : option pystr :=
  match i with
  | 1 => Some (cleaned_choice1 cd)
  | 2 => Some (cleaned_choice2 cd)
  | 3 => Some (cleaned_choice3 cd)
  | _ => None
  end.

(** A model instance of [Question]: built but not saved, or a row. *)
Inductive instance : Type :=
| Unsaved (text : pystr) (image : option pystr) (days : N)
| Saved (row : Question).

(** [question.save()] on a new instance: INSERT, [pub_date] set to now. *)
Definition Question_save (db : DB) (now : Z) (cd : cleaned_data) : DB * Question :=
  let row := {| Question_id := next_id (map Question_id (polls_question db));
                question_text := cleaned_question_text cd;
                pub_date := now;
                image := cleaned_image cd;
                lifespan_days := cleaned_lifespan_days cd |} in
  ({| auth_user := auth_user db;
      polls_userprofile := polls_userprofile db;
      polls_question := polls_question db ++ [row];
      polls_choice := polls_choice db;
      polls_vote := polls_vote db |}, row).

(** [Choice.objects.create(question=, choice_text=)]: refused for a question
    that has no row yet. *)
Definition Choice_objects_create (db : DB) (question : instance) (text : pystr)
    : result DB :=
  match question with
  | Unsaved _ _ _ => Raise ValueError
  | Saved q =>
    let row := {| Choice_id := next_id (map Choice_id (polls_choice db));
                  Choice_question := Question_id q;
                  choice_text := text;
                  votes := 0 |} in
    Ok {| auth_user := auth_user db;
          polls_userprofile := polls_userprofile db;
          polls_question := polls_question db;
          polls_choice := polls_choice db ++ [row];
          polls_vote := polls_vote db |}
  end.

(** [range(lo, hi)]. *)
Definition range (lo hi : Z) : list Z :=
  map (fun k => lo + Z.of_nat k) (seq 0 (Z.to_nat (hi - lo))).

(** The loop [for i in range(1, 4)] of [QuestionCreateForm.save]. *)
Fixpoint create_choices (indices : list Z) (db : DB) (cd : cleaned_data)
    (question : instance) : result DB :=
  match indices with
  | [] => Ok db
  | i :: rest =>
    match cleaned_data_get_choice cd i with
    | Some text =>
      if truthy text
      then db' <- Choice_objects_create db question text ;;
           create_choices rest db' cd question
      else create_choices rest db cd question
    | None => create_choices rest db cd question
    end
  end.

(** [QuestionCreateForm.save(commit)].  [ModelForm.save] raises ValueError
    on a form that did not validate. *)
Definition QuestionCreateForm_save (db : DB) (now : Z) (form : QuestionCreateForm)
    (commit : bool) : result (DB * instance) :=
  match full_clean form with
  | None => Raise ValueError
  | Some cd =>
    let '(db1, question) :=
      if commit
      then let '(db1, row) := Question_save db now cd in (db1, Saved row)
      else (db, Unsaved (cleaned_question_text cd) (cleaned_image cd)
                        (cleaned_lifespan_days cd)) in
    db2 <- create_choices (range 1 4) db1 cd question ;;
    Ok (db2, question)
  end.

(** [question_create(request)], the form bound to the request's data. *)
Definition question_create (db : DB) (now : Z) (request : HttpRequest)
    (form : QuestionCreateForm) : Outcome :=
  match user request with
  | None => {| db_after := db; queued := []; response := Ok redirect_to_login |}
  | Some _ =>
    match method request with
    | POST =>
      if is_valid form
      then match QuestionCreateForm_save db now form true with
           | Ok (db', Saved question) =>
             {| db_after := db';
                queued := [(SUCCESS, question_created (question_text question))];
                response := redirect "polls:index" [] |}
           | Ok (db', Unsaved text _ _) =>
             {| db_after := db';
                queued := [(SUCCESS, question_created text)];
                response := redirect "polls:index" [] |}
           | Raise e => {| db_after := db; queued := []; response := Raise e |}
           end
      else {| db_after := db; queued := []; response := Ok render_question_create |}
    | GET => {| db_after := db; queued := []; response := Ok render_question_create |}
    end
  end.

(** ** Sample data *)

(** 2025-01-01T00:00:00. *)
Definition T0 : Z := 739251 * us_per_day.

Definition alice : User :=
  {| User_id := 1; username := lit "alice"; is_staff := false |}.

Definition color : Question :=
  {| Question_id := 1; question_text := lit "Color?"; pub_date := T0;
     image := None; lifespan_days := 7 |}.

Definition red : Choice :=
  {| Choice_id := 1; Choice_question := 1; choice_text := lit "Red"; votes := 0 |}.

Definition blue : Choice :=
  {| Choice_id := 2; Choice_question := 1; choice_text := lit "Blue"; votes := 0 |}.

Definition db0 : DB :=
  {| auth_user := [alice];
     polls_userprofile := [];
     polls_question := [color];
     polls_choice := [red; blue];
     polls_vote := [] |}.

(** A POST by [u] with [choice=pk]. *)
Definition post_choice (u : User) (pk : Z) : HttpRequest :=
  {| method := POST; user := Some u; POST_choice := Number pk |}.

(** A question whose lifespan ends after the year 9999. *)
Definition forever : Question :=
  {| Question_id := 2; question_text := lit "Forever?"; pub_date := T0;
     image := None; lifespan_days := 3000000 |}.

(** A question published 0.4 s after [T0], and the store that holds it. *)
Definition shape : Question :=
  {| Question_id := 3; question_text := lit "Shape?"; pub_date := T0 + 400000;
     image := None; lifespan_days := 7 |}.

Definition db_shape : DB :=
  {| auth_user := [alice]; polls_userprofile := []; polls_question := [shape];
     polls_choice := []; polls_vote := [] |}.

(** Three questions, the first and the last published at the same instant. *)
Definition db_three : DB :=
  {| auth_user := []; polls_userprofile := [];
     polls_question := [color; shape; forever];
     polls_choice := []; polls_vote := [] |}.

(** The store in which alice has voted for the choice [pk] of the question. *)
Definition db_voted (pk : Z) : DB :=
  {| auth_user := [alice];
     polls_userprofile := [];
     polls_question := [color];
     polls_choice := [red; blue];
     polls_vote :=
       [{| Vote_id := 1; Vote_user := 1; Vote_question := 1; Vote_choice := pk |}] |}.

(** ** Notions used by the properties *)

(** The instant at which the lifespan of [q] ends. *)
Definition expiry (q : Question) : Z :=
  pub_date q + Z.of_N (lifespan_days q) * us_per_day.

(** The listing as the pure predicate defines it: the questions on which
    [is_active] returns true. *)
Definition active_questions (db : DB) (now : Z) : list Question :=
  filter (fun q => match is_active q now with
                   | Ok b => b
                   | Raise _ => false
                   end) (polls_question db).

(** The Vote rows of a (user, question) pair. *)
Definition votes_of (db : DB) (user_id question_id : Z) : list Vote :=
  filter (fun v => (Vote_user v =? user_id) && (Vote_question v =? question_id))
         (polls_vote db).

(** The uniqueness constraint of [Vote]: no two rows with the same
    (user, question). *)
Definition votes_unique (db : DB) : Prop :=
  NoDup (map (fun v => (Vote_user v, Vote_question v)) (polls_vote db)).

(** The states reached from [db0] by calls of [vote], whatever the clock,
    the request and the engine's answers. *)
Inductive reachable (db0 : DB) : DB -> Prop :=
| reachable_start : reachable db0 db0
| reachable_vote (db : DB) (now : Z) (request : HttpRequest) (question_id : Z)
    (w : write_outcome) :
    reachable db0 db ->
    reachable db0 (db_after (vote db now request question_id w)).

(** The row that [Vote.objects.create] inserts. *)
Definition new_vote (db : DB) (u : User) (question : Question) (c : Choice) : Vote :=
  {| Vote_id := next_id (map Vote_id (polls_vote db));
     Vote_user := User_id u;
     Vote_question := Question_id question;
     Vote_choice := Choice_id c |}.

(** The percentage that the results page shows for a choice with [v] votes
    out of [total_votes]: [round(v / total_votes * 100, 1)] when the total is
    positive, the int 0 otherwise. *)
Definition is_percent (total_votes v : Z) (p : number) : Prop :=
  if total_votes >? 0
  then exists ratio, int_truediv v total_votes = Ok ratio
                     /\ p = Float (float_round (float_mul ratio 100) 1)
  else p = Int 0.

(** The double written as the decimal [n / 10^digits]. *)
Definition decimal (n : Z) (digits : N) : float :=
  correctly_rounded_quotient false n (10 ^ Z.of_N digits).

(** The store in which Red has one vote and Blue two. *)
Definition db_counted : DB :=
  {| auth_user := [alice];
     polls_userprofile := [];
     polls_question := [color];
     polls_choice := [add_vote red; add_vote (add_vote blue)];
     polls_vote := [] |}.

(** The form of the scenario: "Color?", three days, Red, nothing, Blue. *)
Definition color_form : QuestionCreateForm :=
  {| data_question_text := lit "Color?";
     data_image := None;
     data_lifespan_days := Some 3;
     data_choice1 := lit "Red";
     data_choice2 := [];
     data_choice3 := lit "Blue" |}.

(** The same with a second text of blanks, and spaces around Blue. *)
Definition blank_form : QuestionCreateForm :=
  {| data_question_text := lit "Color?";
     data_image := None;
     data_lifespan_days := Some 3;
     data_choice1 := lit "Red";
     data_choice2 := lit "   ";
     data_choice3 := lit " Blue " |}.

Definition empty_db : DB :=
  {| auth_user := []; polls_userprofile := []; polls_question := [];
     polls_choice := []; polls_vote := [] |}.

(** Every Choice row references a Question row (the foreign key). *)
Definition choices_reference_questions (db : DB) : Prop :=
  Forall (fun c => In (Choice_question c) (map Question_id (polls_question db)))
         (polls_choice db).

(** The texts that the loop reads, in the order of the indices. *)
Definition texts_at (cd : cleaned_data) (indices : list Z) : list pystr :=
  flat_map (fun i => match cleaned_data_get_choice cd i with
                     | Some text => [text]
                     | None => []
                     end) indices.

(** The profile rows of a user. *)
Definition profiles_of (db : DB) (user_id : Z) : list UserProfile :=
  filter (fun p => UserProfile_user p =? user_id) (polls_userprofile db).

(** A POST by [u] without a choice. *)
Definition post_by (u : User) : HttpRequest :=
  {| method := POST; user := Some u; POST_choice := Absent |}.

(** The store in which alice has a profile and a vote for Red. *)
Definition db_profile : DB :=
  {| auth_user := [alice];
     polls_userprofile :=
       [{| UserProfile_id := 1; UserProfile_user := 1; name := lit "Alice";
           avatar := None |}];
     polls_question := [color];
     polls_choice := [add_vote red; blue];
     polls_vote :=
       [{| Vote_id := 1; Vote_user := 1; Vote_question := 1; Vote_choice := 1 |}] |}.

(** ** More of models.py and views.py *)

(** [t - delta] on a [datetime]: the sum with the opposite [timedelta]. *)
Definition datetime_sub (t delta : Z) : result Z := datetime_add t (- delta).

(** [Question.was_published_recently], with the reading of
    [timezone.now()] passed in. *)
Definition was_published_recently (self : Question) (now : Z) : result bool :=
  delta <- timedelta_days 1 ;;
  since <- datetime_sub now delta ;;
  Ok (pub_date self >=? since).

(** [UserProfile.objects.get_or_create(user=user)], the first statement of
    [profile_edit]: the profile of the user, or a new row with the defaults
    of the model (empty name, no avatar); the flag tells whether the row was
    created. *)
Definition UserProfile_objects_get_or_create (db : DB) (u : User)
    : result (DB * UserProfile * bool) :=
  match filter (fun p => UserProfile_user p =? User_id u) (polls_userprofile db) with
  | [] =>
    let row := {| UserProfile_id := next_id (map UserProfile_id (polls_userprofile db));
                  UserProfile_user := User_id u;
                  name := [];
                  avatar := None |} in
    Ok ({| auth_user := auth_user db;
           polls_userprofile := polls_userprofile db ++ [row];
           polls_question := polls_question db;
           polls_choice := polls_choice db;
           polls_vote := polls_vote db |}, row, true)
  | [row] => Ok (db, row, false)
  | _ :: _ :: _ => Raise MultipleObjectsReturned
  end.

(** The writes of [profile_delete(request)], each as the store that it
    leaves, in the order of the statements: [user.profile.delete()] when
    the profile is found, then [user.delete()].  Nothing is written for a
    request that is not the POST of a logged-in user, or when
    [user.profile] raises something else than [DoesNotExist]. *)
Definition profile_delete_stores (db : DB) (request : HttpRequest) : list DB :=
  match user request with
  | None => []
  | Some u =>
    match method request with
    | POST =>
      match user_profile db u with
      | Ok p =>
        let db1 := UserProfile_delete db p in
        [db1; User_delete db1 u]
      | Raise DoesNotExist => [User_delete db u]
      | Raise _ => []
      end
    | GET => []
    end
  end.

(** ** More notions *)

(** The Vote rows for a choice. *)
Definition votes_for (db : DB) (choice_id : Z) : list Vote :=
  filter (fun v => Vote_choice v =? choice_id) (polls_vote db).

(** No choice counts more votes than it has Vote rows. *)
Definition tally_at_most_votes (db : DB) : Prop :=
  Forall (fun c => votes c <= Z.of_nat (List.length (votes_for db (Choice_id c))))
         (polls_choice db).

(** Every choice counts exactly its Vote rows. *)
Definition tally_matches_votes (db : DB) : Prop :=
  Forall (fun c => votes c = Z.of_nat (List.length (votes_for db (Choice_id c))))
         (polls_choice db).

(** Latest publication first. *)
Definition latest_first (rows : list Question) : Prop :=
  StronglySorted (fun q q' => pub_date q' <= pub_date q) rows.

(** A request without a logged-in user. *)
Definition anonymous_post (pk : Z) : HttpRequest :=
  {| method := POST; user := None; POST_choice := Number pk |}.

Definition bob : User :=
  {| User_id := 2; username := lit "bob"; is_staff := false |}.

(** A choice of another question, in a store with the two questions. *)
Definition circle : Choice :=
  {| Choice_id := 3; Choice_question := 3; choice_text := lit "Circle"; votes := 0 |}.

Definition db_two : DB :=
  {| auth_user := [alice; bob];
     polls_userprofile := [];
     polls_question := [color; shape];
     polls_choice := [red; blue; circle];
     polls_vote := [] |}.

(** A text as the forms store it: not empty, within the length, with no
    whitespace at either end, without NUL. *)
Definition stored_text_ok (max_length : Z) (s : pystr) : Prop :=
  s <> [] /\ Z.of_nat (List.length s) <= max_length /\ strip s = s /\ ~ In 0%N s.

(** The store in which bob has a profile and alice a profile and votes. *)
Definition db_members : DB :=
  {| auth_user := [alice; bob];
     polls_userprofile :=
       [{| UserProfile_id := 1; UserProfile_user := 1; name := lit "Alice";
           avatar := None |};
        {| UserProfile_id := 2; UserProfile_user := 2; name := lit "Bob";
           avatar := None |}];
     polls_question := [color];
     polls_choice := [add_vote red; add_vote blue];
     polls_vote :=
       [{| Vote_id := 1; Vote_user := 1; Vote_question := 1; Vote_choice := 1 |};
        {| Vote_id := 2; Vote_user := 2; Vote_question := 1; Vote_choice := 2 |}] |}.

(** A form whose third choice has 201 characters. *)
Definition long_form : QuestionCreateForm :=
  {| data_question_text := lit "Color?";
     data_image := None;
     data_lifespan_days := Some 3;
     data_choice1 := lit "Red";
     data_choice2 := lit "Blue";
     data_choice3 := repeat 120%N 201 |}.

(** A form without any choice. *)
Definition bare_form : QuestionCreateForm :=
  {| data_question_text := lit " Color? ";
     data_image := None;
     data_lifespan_days := Some 3;
     data_choice1 := [];
     data_choice2 := lit "  ";
     data_choice3 := [] |}.

(** The form of the scenario with a lifespan of 0 days. *)
Definition instant_form : QuestionCreateForm :=
  {| data_question_text := lit "Color?";
     data_image := None;
     data_lifespan_days := Some 0;
     data_choice1 := lit "Red";
     data_choice2 := [];
     data_choice3 := lit "Blue" |}.

(** A question dated one day after [T0]. *)
Definition later : Question :=
  {| Question_id := 9; question_text := lit "Later?"; pub_date := T0 + us_per_day;
     image := None; lifespan_days := 7 |}.


(** ** Tactics *)

(** Closes the cases of [vote] that return the store as they found it,
    without the success message. *)
Ltac store_untouched := left; split; [reflexivity | discriminate].

(** Splits a conjunction of equations that hold by computation. *)
Ltac by_computation := vm_compute; repeat split; reflexivity.

(** * Properties *)

(** ** Question lifecycle *)

Lemma timedelta_days_in_range (d : Z) :
  0 <= d -> d * us_per_day <= datetime_max ->
  timedelta_days d = Ok (d * us_per_day).
Proof.
  intros Hd Hmax. unfold timedelta_days.
  replace (Z.abs d <=? 999999999) with true; [reflexivity|].
  symmetry. apply Z.leb_le. rewrite Z.abs_eq by assumption.
  unfold datetime_max, us_per_day, us_per_second in Hmax. lia.
Qed.

(** Within the range of [datetime], [is_active] is the comparison
    [now <= pub_date + lifespan_days days], equality included. *)
Lemma is_active_in_range (q : Question) (now : Z) :
  0 <= pub_date q -> expiry q <= datetime_max ->
  is_active q now = Ok (now <=? expiry q).
Proof.
  intros Hpub Hmax. unfold is_active, expiry in *.
  rewrite timedelta_days_in_range by lia. cbn [bind].
  unfold datetime_add.
  replace ((0 <=? pub_date q + Z.of_N (lifespan_days q) * us_per_day)
           && (pub_date q + Z.of_N (lifespan_days q) * us_per_day <=? datetime_max))
    with true; [reflexivity|].
  symmetry. apply andb_true_iff. split; apply Z.leb_le; [|assumption].
  unfold us_per_day, us_per_second. lia.
Qed.

Lemma is_active_iff (q : Question) (now : Z) :
  0 <= pub_date q -> expiry q <= datetime_max ->
  exists b, is_active q now = Ok b /\ (b = true <-> now <= expiry q).
Proof.
  intros Hpub Hmax. exists (now <=? expiry q). split.
  - now apply is_active_in_range.
  - apply Z.leb_le.
Qed.

Lemma is_active_boundary (q : Question) :
  0 <= pub_date q -> expiry q <= datetime_max ->
  is_active q (expiry q) = Ok true
  /\ is_active q (expiry q + us_per_second) = Ok false
  /\ is_active q (expiry q + 1) = Ok false.
Proof.
  intros Hpub Hmax. rewrite !is_active_in_range by assumption.
  repeat split; f_equal.
  - apply Z.leb_le. lia.
  - apply Z.leb_gt. unfold us_per_second. lia.
  - apply Z.leb_gt. lia.
Qed.

(** The scenario of the seven-day question: active at T+7 days exactly,
    not one second later. *)
Example is_active_seven_days :
  is_active color (T0 + 7 * us_per_day) = Ok true
  /\ is_active color (T0 + 7 * us_per_day + us_per_second) = Ok false.
Proof. split; reflexivity. Qed.

(** C5. [is_active] does not return for every question: when
    [pub_date + lifespan_days days] lies after 9999-12-31 the addition
    raises OverflowError, at every reading of the clock, although such a
    question has not expired. *)
Theorem is_active_overflow :
  forall now : Z, is_active forever now = Raise OverflowError.
Proof. intro now. reflexivity. Qed.

(** On a publication date of whole seconds, the listing's WHERE clause is
    the strict comparison [now < pub_date + lifespan_days days]. *)
Lemma index_where_whole_second (q : Question) (now : Z) :
  0 <= pub_date q -> pub_date q mod us_per_second = 0 ->
  expiry q <= datetime_max ->
  index_where now q = (now <? expiry q).
Proof.
  intros Hpub Hsec Hmax.
  unfold index_where, sqlite_datetime, expiry, text_gt in *.
  unfold datetime_max, us_per_day, us_per_second, ms_per_day, iJD_epoch, iJD_max in *.
  set (d := Z.of_N (lifespan_days q)) in *.
  assert (Hd : 0 <= d) by (subst d; lia).
  pose proof (Z.div_mod (pub_date q) 1000000 ltac:(lia)) as Hk.
  rewrite Hsec, Z.add_0_r in Hk.
  set (k := pub_date q / 1000000) in *.
  assert (Hms : (pub_date q + 500) / 1000 = k * 1000).
  { rewrite Hk. replace (1000000 * k + 500) with (500 + (k * 1000) * 1000) by lia.
    rewrite Z.div_add by lia. reflexivity. }
  rewrite Hms.
  replace ((0 <=? k * 1000 + d * 86400000 + 148731163200000)
           && (k * 1000 + d * 86400000 + 148731163200000 <=? 464269060799999))
    with true by (symmetry; apply andb_true_iff; split; apply Z.leb_le; lia).
  cbn [option_map where_].
  replace ((k * 1000 + d * 86400000) / 1000) with (k + d * 86400)
    by (apply Z.div_unique with (r := 0); lia).
  rewrite Hk.
  pose proof (Z.div_mod now 1000000 ltac:(lia)) as Hn.
  pose proof (Z.mod_pos_bound now 1000000 ltac:(lia)) as Hb.
  destruct (Z.ltb_spec now (1000000 * k + d * (86400 * 1000000)));
    [apply Z.gtb_lt | rewrite Z.gtb_ltb; apply Z.ltb_ge]; lia.
Qed.

(** So, on such a question, the listing and [is_active] disagree exactly
    when the clock reads the end of the lifespan. *)
Lemma index_where_vs_is_active (q : Question) (now : Z) :
  0 <= pub_date q -> pub_date q mod us_per_second = 0 ->
  expiry q <= datetime_max ->
  (is_active q now = Ok (index_where now q) <-> now <> expiry q).
Proof.
  intros Hpub Hsec Hmax.
  rewrite is_active_in_range, index_where_whole_second by assumption.
  destruct (Z.leb_spec now (expiry q)), (Z.ltb_spec now (expiry q));
    split; intro H'; try congruence; try lia.
Qed.

(** The text that SQLite compares has no fraction of a second: during the
    last second of its lifespan a question is active and not listed. *)
Example listing_drops_the_last_second :
  let now := T0 + 7 * us_per_day + 200000 in
  is_active shape now = Ok true
  /\ IndexView_get_queryset db_shape now = []
  /\ IndexView_get_queryset db_shape (T0 + 7 * us_per_day - 1) = [shape].
Proof. by_computation. Qed.

(** The listing is ordered by publication date, latest first; a lifespan
    that ends after the year 9999 makes the SQL expression NULL, and the
    question is not listed. *)
Example listing_order :
  map Question_id (IndexView_get_queryset db_three (T0 + us_per_day)) = [3; 1].
Proof. vm_compute. reflexivity. Qed.

(** C6. At the end of the lifespan exactly, the listing query and
    [is_active] disagree: the question published at T0 with a lifespan of 7
    days is active at T0 + 7 days (it accepts votes) and is absent from the
    listing, which contains it one microsecond earlier; the staff page
    counts it as expired. *)
Theorem listing_disagrees_with_is_active_at_boundary :
  let now := T0 + 7 * us_per_day in
  is_active color now = Ok true
  /\ active_questions db0 now = [color]
  /\ IndexView_get_queryset db0 now = []
  /\ expired_questions db0 now = [color]
  /\ IndexView_get_queryset db0 (now - 1) = [color].
Proof. by_computation. Qed.

(** ** Lookups *)

Lemma objects_get_Ok {A : Type} (rows : list A) (x : A) :
  objects_get rows = Ok x -> rows = [x].
Proof. destruct rows as [|a [|b rest]]; cbn; congruence. Qed.

Lemma objects_get_singleton {A : Type} (x : A) : objects_get [x] = Ok x.
Proof. reflexivity. Qed.

Lemma get_object_or_404_Some (rows : list Question) (pk : Z) (q : Question) :
  get_object_or_404 rows pk = Ok (Some q) ->
  In q rows /\ Question_id q = pk.
Proof.
  unfold get_object_or_404.
  destruct (objects_get _) as [r|e] eqn:E.
  - intros [= <-]. apply objects_get_Ok in E.
    assert (Hin : In r (filter (fun q => Question_id q =? pk) rows))
      by (rewrite E; now left).
    apply filter_In in Hin as [Hin Hpk]. split; [assumption|lia].
  - destruct e; discriminate.
Qed.

Lemma selected_choice_of_Ok (db : DB) (question : Question) (request : HttpRequest)
    (c : Choice) :
  selected_choice_of db question request = Ok c ->
  POST_choice request = Number (Choice_id c)
  /\ In c (polls_choice db)
  /\ Choice_question c = Question_id question.
Proof.
  unfold selected_choice_of, choice_set_get, choice_set_all.
  destruct (POST_choice request) as [| |pk]; try discriminate.
  intros E. apply objects_get_Ok in E.
  assert (Hin : In c [c]) by now left.
  rewrite <- E in Hin.
  apply filter_In in Hin as [Hin Hpk]. apply filter_In in Hin as [Hin Hq].
  repeat split; [f_equal; lia | assumption | lia].
Qed.

Lemma Vote_objects_create_Ok (db : DB) (u : User) (q : Question) (c : Choice)
    (db1 : DB) :
  Vote_objects_create db u q c = Ok db1 ->
  votes_of db (User_id u) (Question_id q) = []
  /\ auth_user db1 = auth_user db
  /\ polls_userprofile db1 = polls_userprofile db
  /\ polls_question db1 = polls_question db
  /\ polls_choice db1 = polls_choice db
  /\ polls_vote db1 = polls_vote db ++ [new_vote db u q c].
Proof.
  unfold Vote_objects_create, Vote_objects_filter, votes_of.
  destruct (filter _ (polls_vote db)) as [|v rest]; cbn; [|discriminate].
  intros [= <-]. cbn. repeat split.
Qed.

Lemma Vote_objects_create_refused (db : DB) (u : User) (q : Question) (c : Choice) :
  votes_of db (User_id u) (Question_id q) <> [] ->
  Vote_objects_create db u q c = Raise IntegrityError.
Proof.
  unfold Vote_objects_create, Vote_objects_filter, votes_of.
  destruct (filter _ (polls_vote db)) as [|v rest]; cbn; [congruence|reflexivity].
Qed.

(** ** The shape of a call of [vote]

    Either the store is left as it was, or the Vote row was inserted and
    then the UPDATE of the tally was attempted: carried out (the call
    succeeds), or failed (the row stays). *)
Lemma vote_cases (db : DB) (now : Z) (request : HttpRequest) (question_id : Z)
    (w : write_outcome) :
  let out := vote db now request question_id w in
  (db_after out = db /\ queued out <> [(SUCCESS, vote_counted)])
  \/ exists u question c db1,
       user request = Some u
       /\ get_object_or_404 (polls_question db) question_id = Ok (Some question)
       /\ is_active question now = Ok true
       /\ selected_choice_of db question request = Ok c
       /\ Vote_objects_create db u question c = Ok db1
       /\ match w with
          | Written =>
            Choice_save db1 (add_vote c) Written = Ok (db_after out)
            /\ queued out = [(SUCCESS, vote_counted)]
          | Fails e =>
            db_after out = db1 /\ queued out <> [(SUCCESS, vote_counted)]
          end.
Proof.
  unfold vote.
  destruct (get_object_or_404 (polls_question db) question_id)
    as [[question|]|e0] eqn:Hq; cbn; [|store_untouched..].
  destruct (is_active question now) as [[|]|e1] eqn:Hact; cbn; [|store_untouched..].
  destruct (user request) as [u|] eqn:Hu; cbn; [|store_untouched].
  destruct (selected_choice_of db question request) as [c|e2] eqn:Hc;
    [|destruct e2; cbn; store_untouched].
  destruct (Vote_objects_create db u question c) as [db1|e3] eqn:Hv;
    [|destruct e3; cbn; store_untouched].
  right. exists u, question, c, db1.
  repeat (split; [reflexivity || assumption|]).
  destruct w as [|e4]; cbn; [split; reflexivity|].
  destruct e4; cbn; split; (reflexivity || discriminate).
Qed.

Lemma Choice_save_Written (db : DB) (c : Choice) (db2 : DB) :
  Choice_save db c Written = Ok db2 ->
  auth_user db2 = auth_user db
  /\ polls_userprofile db2 = polls_userprofile db
  /\ polls_question db2 = polls_question db
  /\ polls_choice db2 =
       map (fun row => if Choice_id row =? Choice_id c then c else row) (polls_choice db)
  /\ polls_vote db2 = polls_vote db.
Proof. cbn. intros [= <-]. cbn. repeat split. Qed.

(** The Vote table after a call: as before, or one row longer, and then the
    user had no row for the question. *)
Lemma vote_polls_vote (db : DB) (now : Z) (request : HttpRequest) (question_id : Z)
    (w : write_outcome) :
  let out := vote db now request question_id w in
  polls_vote (db_after out) = polls_vote db
  \/ exists u question c,
       user request = Some u
       /\ Question_id question = question_id
       /\ votes_of db (User_id u) question_id = []
       /\ polls_vote (db_after out) = polls_vote db ++ [new_vote db u question c].
Proof.
  cbv zeta.
  destruct (vote_cases db now request question_id w)
    as [[Hsame _] | (u & question & c & db1 & Hu & Hq & _ & _ & Hv & Hw)].
  - left. now rewrite Hsame.
  - right. exists u, question, c.
    apply get_object_or_404_Some in Hq as [_ Hid].
    apply Vote_objects_create_Ok in Hv as (Hnone & _ & _ & _ & _ & Hvotes).
    subst question_id. repeat split; try assumption.
    destruct w as [|e].
    + destruct Hw as [Hsave _].
      apply Choice_save_Written in Hsave as (_ & _ & _ & _ & Hsame).
      congruence.
    + destruct Hw as [Hsame _]. congruence.
Qed.

Lemma votes_of_nil (db : DB) (uid qid : Z) :
  votes_of db uid qid = [] ->
  ~ In (uid, qid) (map (fun v => (Vote_user v, Vote_question v)) (polls_vote db)).
Proof.
  unfold votes_of. intros Hnil Hin.
  apply in_map_iff in Hin as (v & Hkey & Hin).
  injection Hkey as Hu Hq.
  assert (Hf : In v []); [|destruct Hf].
  rewrite <- Hnil. apply filter_In. split; [assumption|].
  apply andb_true_iff. split; apply Z.eqb_eq; assumption.
Qed.

Lemma NoDup_snoc {A : Type} (l : list A) (x : A) :
  NoDup l -> ~ In x l -> NoDup (l ++ [x]).
Proof.
  intros Hl Hx. apply NoDup_app; [assumption | repeat constructor; intros [] |].
  intros a Ha [<-|[]]. contradiction.
Qed.

(** [vote] keeps the uniqueness constraint. *)
Lemma vote_keeps_votes_unique (db : DB) (now : Z) (request : HttpRequest)
    (question_id : Z) (w : write_outcome) :
  votes_unique db -> votes_unique (db_after (vote db now request question_id w)).
Proof.
  unfold votes_unique. intros Huniq.
  destruct (vote_polls_vote db now request question_id w)
    as [Hsame | (u & question & c & _ & Hid & Hnone & Hnew)].
  - now rewrite Hsame.
  - rewrite Hnew, map_app. cbn. subst question_id.
    apply NoDup_snoc; [assumption|]. now apply votes_of_nil.
Qed.

Lemma reachable_votes_unique (db0 db : DB) :
  votes_unique db0 -> reachable db0 db -> votes_unique db.
Proof.
  intros H0 Hr. induction Hr as [|db now request question_id w _ IH].
  - assumption.
  - now apply vote_keeps_votes_unique.
Qed.

Lemma unique_key_at_most_one (l : list Vote) (uid qid : Z) :
  NoDup (map (fun v => (Vote_user v, Vote_question v)) l) ->
  (List.length
     (filter (fun v => ((Vote_user v =? uid) && (Vote_question v =? qid))%Z) l)
   <= 1)%nat.
Proof.
  induction l as [|v l IH]; cbn; intros Hnd; [lia|].
  apply NoDup_cons_iff in Hnd as [Hnotin Hnd].
  destruct ((Vote_user v =? uid) && (Vote_question v =? qid)) eqn:Hkey.
  - apply andb_true_iff in Hkey as [Hu Hq].
    apply Z.eqb_eq in Hu, Hq. subst uid qid.
    replace (filter _ l) with (@nil Vote); [cbn; lia|].
    symmetry. destruct (filter _ l) as [|v' rest] eqn:Hf; [reflexivity|].
    exfalso. apply Hnotin.
    assert (Hin : In v' (filter
      (fun v0 => (Vote_user v0 =? Vote_user v) && (Vote_question v0 =? Vote_question v)) l))
      by (rewrite Hf; now left).
    apply filter_In in Hin as [Hin Hk].
    apply andb_true_iff in Hk as [Hu Hq]. apply Z.eqb_eq in Hu, Hq.
    apply in_map_iff. exists v'. split; [congruence|assumption].
  - now apply IH.
Qed.

(** C1. In every state reached by calls of [vote] from a store that
    satisfies the uniqueness constraint of the Vote table, every
    (user, question) pair has at most one Vote row, and a vote attempt by
    a user who has a row for the question adds no row: the insert is
    refused by the table's constraint, the view itself checks nothing. *)
Theorem one_vote_per_user_and_question (db0 db : DB) :
  votes_unique db0 -> reachable db0 db ->
  (forall user_id question_id : Z,
      (List.length (votes_of db user_id question_id) <= 1)%nat)
  /\ (forall now request question_id w u,
         user request = Some u ->
         votes_of db (User_id u) question_id <> [] ->
         polls_vote (db_after (vote db now request question_id w)) = polls_vote db).
Proof.
  intros H0 Hr. split.
  - intros uid qid. apply unique_key_at_most_one.
    exact (reachable_votes_unique db0 db H0 Hr).
  - intros now request qid w u Hu Hhas.
    destruct (vote_polls_vote db now request qid w)
      as [Hsame | (u' & question & c & Hu' & _ & Hnone & _)]; [assumption|].
    rewrite Hu in Hu'. injection Hu' as <-. contradiction.
Qed.

(** The state after alice voted for Red and then tried Blue. *)
Lemma one_vote_per_user_and_question_witness :
  let db1 := db_after (vote db0 T0 (post_choice alice 1) 1 Written) in
  let db2 := db_after (vote db1 T0 (post_choice alice 2) 1 Written) in
  (List.length (votes_of db2 1 1) <= 1)%nat
  /\ polls_vote (db_after (vote db2 T0 (post_choice alice 2) 1 Written)) = polls_vote db2.
Proof.
  cbv zeta.
  destruct (one_vote_per_user_and_question db0
              (db_after (vote (db_after (vote db0 T0 (post_choice alice 1) 1 Written))
                              T0 (post_choice alice 2) 1 Written)))
    as [Hone Hagain].
  - constructor.
  - apply reachable_vote, reachable_vote, reachable_start.
  - split.
    + apply Hone.
    + apply (Hagain T0 (post_choice alice 2) 1 Written alice); [reflexivity|].
      vm_compute. discriminate.
Defined.

(** The scenario of the double vote: Red goes from 0 to 1; the second
    attempt, for Blue, is answered "already voted" and changes nothing. *)
Example vote_twice :
  let first := vote db0 T0 (post_choice alice 1) 1 Written in
  let second := vote (db_after first) T0 (post_choice alice 2) 1 Written in
  map votes (polls_choice (db_after first)) = [1; 0]
  /\ queued first = [(SUCCESS, vote_counted)]
  /\ queued second = [(WARNING, already_voted)]
  /\ response second = Ok (HttpResponseRedirect ("polls:results"%string, [1]))
  /\ db_after second = db_after first.
Proof. by_computation. Qed.

(** An UPDATE by primary key touches the one row that has the key. *)
Lemma update_other_rows (l : list Choice) (c' : Choice) :
  ~ In (Choice_id c') (map Choice_id l) ->
  map (fun row => if Choice_id row =? Choice_id c' then c' else row) l = l.
Proof.
  induction l as [|a l IH]; cbn; intros Hnot; [reflexivity|].
  destruct (Z.eqb_spec (Choice_id a) (Choice_id c')) as [E|E].
  - exfalso. apply Hnot. now left.
  - f_equal. apply IH. intros Hin. apply Hnot. now right.
Qed.

Lemma update_by_primary_key (l : list Choice) (c c' : Choice) :
  NoDup (map Choice_id l) -> In c l -> Choice_id c' = Choice_id c ->
  exists before after,
    l = before ++ c :: after
    /\ map (fun row => if Choice_id row =? Choice_id c' then c' else row) l
       = before ++ c' :: after.
Proof.
  intros Hnd Hin Hid. induction l as [|a l IH]; [destruct Hin|].
  cbn in Hnd. apply NoDup_cons_iff in Hnd as [Hnotin Hnd].
  destruct Hin as [->|Hin].
  - exists [], l. cbn. split; [reflexivity|].
    rewrite Hid, Z.eqb_refl. f_equal.
    rewrite <- Hid. apply update_other_rows. now rewrite Hid.
  - destruct (IH Hnd Hin) as (before & after & Hl & Hmap).
    exists (a :: before), after. cbn. split; [now rewrite Hl|].
    destruct (Z.eqb_spec (Choice_id a) (Choice_id c')) as [E|E].
    + exfalso. apply Hnotin. rewrite E, Hid. now apply in_map.
    + now rewrite Hmap.
Qed.

(** C3. A successful call of [vote] (the one that queues the success
    message) for choice [c] of the question adds one Vote row, replaces [c]
    by [c] with one more vote, and leaves every other row of every table as
    it was.  The primary key of the Choice table is assumed unique. *)
Theorem vote_success_changes_one_tally (db : DB) (now : Z) (request : HttpRequest)
    (question_id : Z) (w : write_outcome) :
  NoDup (map Choice_id (polls_choice db)) ->
  queued (vote db now request question_id w) = [(SUCCESS, vote_counted)] ->
  let db' := db_after (vote db now request question_id w) in
  exists u question c before after,
    user request = Some u
    /\ In question (polls_question db) /\ Question_id question = question_id
    /\ POST_choice request = Number (Choice_id c)
    /\ Choice_question c = question_id
    /\ polls_choice db = before ++ c :: after
    /\ polls_choice db' = before ++ add_vote c :: after
    /\ votes (add_vote c) = votes c + 1
    /\ polls_vote db' = polls_vote db ++ [new_vote db u question c]
    /\ auth_user db' = auth_user db
    /\ polls_userprofile db' = polls_userprofile db
    /\ polls_question db' = polls_question db.
Proof.
  intros Hpk Hok db'. subst db'.
  destruct (vote_cases db now request question_id w)
    as [[_ Hno] | (u & question & c & db1 & Hu & Hq & _ & Hc & Hv & Hw)];
    [contradiction|].
  destruct w as [|e]; [|destruct Hw as [_ Hno]; contradiction].
  destruct Hw as [Hsave _].
  apply get_object_or_404_Some in Hq as [Hqin Hqid].
  apply selected_choice_of_Ok in Hc as (Hpost & Hcin & Hcq).
  apply Vote_objects_create_Ok in Hv as (_ & Hu1 & Hp1 & Hq1 & Hc1 & Hv1).
  apply Choice_save_Written in Hsave as (Hu2 & Hp2 & Hq2 & Hc2 & Hv2).
  destruct (update_by_primary_key (polls_choice db) c (add_vote c) Hpk Hcin eq_refl)
    as (before & after & Hsplit & Hmap).
  exists u, question, c, before, after.
  repeat split; congruence.
Qed.

Lemma vote_success_changes_one_tally_witness :
  exists u question c before after,
    user (post_choice alice 2) = Some u
    /\ In question (polls_question db0) /\ Question_id question = 1
    /\ POST_choice (post_choice alice 2) = Number (Choice_id c)
    /\ Choice_question c = 1
    /\ polls_choice db0 = before ++ c :: after
    /\ polls_choice (db_after (vote db0 T0 (post_choice alice 2) 1 Written))
       = before ++ add_vote c :: after
    /\ votes (add_vote c) = votes c + 1
    /\ polls_vote (db_after (vote db0 T0 (post_choice alice 2) 1 Written))
       = polls_vote db0 ++ [new_vote db0 u question c]
    /\ auth_user (db_after (vote db0 T0 (post_choice alice 2) 1 Written)) = auth_user db0
    /\ polls_userprofile (db_after (vote db0 T0 (post_choice alice 2) 1 Written))
       = polls_userprofile db0
    /\ polls_question (db_after (vote db0 T0 (post_choice alice 2) 1 Written))
       = polls_question db0.
Proof.
  apply (vote_success_changes_one_tally db0 T0 (post_choice alice 2) 1 Written).
  - cbn. repeat constructor; cbn; intuition discriminate.
  - reflexivity.
Defined.

(** C2, as the code has it.  The insert of the Vote row and the update of
    the tally are two writes, the insert first, with no transaction around
    them.  A call either writes nothing, or inserts the row and then
    updates the tally or not, as the engine answers the UPDATE: so the
    tally never moves without the row.  And when the insert is carried out
    and the UPDATE fails, the store is left as the insert made it: the row
    is there, the tallies are as before. *)
Theorem vote_insert_and_increment_are_two_writes (db : DB) (now : Z)
    (request : HttpRequest) (question_id : Z) :
  (forall w,
      let out := vote db now request question_id w in
      db_after out = db
      \/ exists u question c,
           In c (polls_choice db)
           /\ polls_vote (db_after out) = polls_vote db ++ [new_vote db u question c]
           /\ polls_choice (db_after out) =
                match w with
                | Written =>
                  map (fun row => if Choice_id row =? Choice_id c then add_vote c else row)
                      (polls_choice db)
                | Fails _ => polls_choice db
                end)
  /\ (forall u question c db1 e,
         user request = Some u ->
         get_object_or_404 (polls_question db) question_id = Ok (Some question) ->
         is_active question now = Ok true ->
         selected_choice_of db question request = Ok c ->
         Vote_objects_create db u question c = Ok db1 ->
         db_after (vote db now request question_id (Fails e)) = db1
         /\ polls_vote db1 = polls_vote db ++ [new_vote db u question c]
         /\ polls_choice db1 = polls_choice db).
Proof.
  split.
  - intros w out. subst out.
    destruct (vote_cases db now request question_id w)
      as [[Hsame _] | (u & question & c & db1 & Hu & Hq & _ & Hc & Hv & Hw)];
      [now left|].
    right. exists u, question, c.
    apply selected_choice_of_Ok in Hc as (_ & Hcin & _).
    apply Vote_objects_create_Ok in Hv as (_ & _ & _ & _ & Hc1 & Hv1).
    destruct w as [|e].
    + destruct Hw as [Hsave _].
      apply Choice_save_Written in Hsave as (_ & _ & _ & Hc2 & Hv2).
      repeat split; [assumption | congruence |].
      rewrite Hc2, Hc1. reflexivity.
    + destruct Hw as [-> _]. repeat split; assumption.
  - intros u question c db1 e Hu Hq Hact Hc Hv.
    destruct (vote_cases db now request question_id (Fails e))
      as [[Hsame _] | (u' & question' & c' & db1' & Hu' & Hq' & _ & Hc' & Hv' & Hw)].
    + exfalso. unfold vote in Hsame. rewrite Hq, Hact, Hu, Hc, Hv in Hsame.
      apply Vote_objects_create_Ok in Hv as (_ & _ & _ & _ & _ & Hv1).
      assert (Hlen : List.length (polls_vote db1) = List.length (polls_vote db)).
      { destruct e; cbn in Hsame; now rewrite Hsame. }
      rewrite Hv1, length_app in Hlen. cbn in Hlen. lia.
    + destruct Hw as [Hsame _].
      assert (u' = u) by congruence. assert (question' = question) by congruence.
      subst u' question'. assert (c' = c) by congruence. subst c'.
      assert (db1' = db1) by congruence. subst db1'.
      apply Vote_objects_create_Ok in Hv as (_ & _ & _ & _ & Hc1 & Hv1).
      repeat split; assumption.
Qed.

Lemma vote_insert_and_increment_are_two_writes_witness :
  db_after (vote db0 T0 (post_choice alice 1) 1 (Fails OperationalError))
  = {| auth_user := [alice]; polls_userprofile := []; polls_question := [color];
       polls_choice := [red; blue];
       polls_vote := [new_vote db0 alice color red] |}
  /\ polls_vote {| auth_user := [alice]; polls_userprofile := [];
                   polls_question := [color]; polls_choice := [red; blue];
                   polls_vote := [new_vote db0 alice color red] |}
     = polls_vote db0 ++ [new_vote db0 alice color red]
  /\ polls_choice {| auth_user := [alice]; polls_userprofile := [];
                     polls_question := [color]; polls_choice := [red; blue];
                     polls_vote := [new_vote db0 alice color red] |}
     = polls_choice db0.
Proof.
  apply (proj2 (vote_insert_and_increment_are_two_writes db0 T0 (post_choice alice 1) 1)
               alice color red _ OperationalError); reflexivity.
Defined.

(** C2 fails as stated: alice votes for Red and the UPDATE of the tally
    fails; the call ends in the exception, the Vote row is in the table
    and Red still counts no vote. *)
Lemma vote_failed_increment_leaves_vote_row :
  let out := vote db0 T0 (post_choice alice 1) 1 (Fails OperationalError) in
  response out = Raise OperationalError
  /\ polls_vote db0 = []
  /\ polls_vote (db_after out)
     = [{| Vote_id := 1; Vote_user := 1; Vote_question := 1; Vote_choice := 1 |}]
  /\ map votes (polls_choice (db_after out)) = [0; 0].
Proof. by_computation. Qed.

(** C4, as the code has it.  A call of [vote] by a user who has a Vote row
    for the question changes nothing in the store, whatever its outcome.
    When the question is active and the posted choice is one of its
    choices, the outcome is the "already voted" one: the warning message
    and a redirect to the results page of the question, which names the
    question and nothing of the existing vote.  Calling again gives the
    same outcome. *)
Theorem vote_again_changes_nothing (db : DB) (now : Z) (request : HttpRequest)
    (question_id : Z) (w : write_outcome) (u : User) :
  user request = Some u ->
  votes_of db (User_id u) question_id <> [] ->
  let out := vote db now request question_id w in
  db_after out = db
  /\ (forall question c,
         get_object_or_404 (polls_question db) question_id = Ok (Some question) ->
         is_active question now = Ok true ->
         selected_choice_of db question request = Ok c ->
         queued out = [(WARNING, already_voted)]
         /\ response out = Ok (HttpResponseRedirect ("polls:results"%string, [question_id])))
  /\ vote (db_after out) now request question_id w = out.
Proof.
  intros Hu Hhas out. subst out.
  assert (Hsame : db_after (vote db now request question_id w) = db).
  { destruct (vote_cases db now request question_id w)
      as [[Hsame _] | (u' & question & c & db1 & Hu' & Hq & _ & _ & Hv & _)];
      [assumption|].
    exfalso. apply Hhas.
    apply get_object_or_404_Some in Hq as [_ Hid].
    apply Vote_objects_create_Ok in Hv as (Hnone & _).
    assert (u' = u) by congruence. subst u' question_id. assumption. }
  split; [assumption|]. split.
  - intros question c Hq Hact Hc.
    pose proof (get_object_or_404_Some _ _ _ Hq) as [_ Hid].
    unfold vote. rewrite Hq, Hact, Hu, Hc.
    rewrite Vote_objects_create_refused by (rewrite Hid; assumption).
    cbn. rewrite Hid. split; reflexivity.
  - now rewrite Hsame.
Qed.

Lemma vote_again_changes_nothing_witness :
  let out := vote (db_voted 1) T0 (post_choice alice 2) 1 Written in
  db_after out = db_voted 1
  /\ (forall question c,
         get_object_or_404 (polls_question (db_voted 1)) 1 = Ok (Some question) ->
         is_active question T0 = Ok true ->
         selected_choice_of (db_voted 1) question (post_choice alice 2) = Ok c ->
         queued out = [(WARNING, already_voted)]
         /\ response out = Ok (HttpResponseRedirect ("polls:results"%string, [1])))
  /\ vote (db_after out) T0 (post_choice alice 2) 1 Written = out.
Proof.
  apply (vote_again_changes_nothing (db_voted 1) T0 (post_choice alice 2) 1 Written alice).
  - reflexivity.
  - vm_compute. discriminate.
Defined.

(** C4 fails as stated.  Alice posts Blue on a question she has voted on:
    whether her vote was for Red or for Blue, the messages and the response
    are the same, a warning and a redirect that carries the key of the
    question; the choice of the existing vote is not in them.  And once
    the lifespan is over the call by the same user is answered "voting is
    over", not "already voted". *)
Lemma already_voted_outcome_hides_choice :
  let was_red := vote (db_voted 1) T0 (post_choice alice 2) 1 Written in
  let was_blue := vote (db_voted 2) T0 (post_choice alice 2) 1 Written in
  let late := vote (db_voted 1) (T0 + 8 * us_per_day) (post_choice alice 2) 1 Written in
  map Vote_choice (votes_of (db_voted 1) 1 1) = [1]
  /\ map Vote_choice (votes_of (db_voted 2) 1 1) = [2]
  /\ queued was_red = [(WARNING, already_voted)]
  /\ response was_red = Ok (HttpResponseRedirect ("polls:results"%string, [1]))
  /\ queued was_blue = queued was_red
  /\ response was_blue = response was_red
  /\ queued late = [(ERROR, voting_is_over)]
  /\ response late = Ok (HttpResponseRedirect ("polls:index"%string, [])).
Proof. by_computation. Qed.

(** ** Results *)

Lemma int_truediv_nonzero (a b : Z) :
  b <> 0 -> exists ratio, int_truediv a b = Ok ratio.
Proof.
  intros Hb. unfold int_truediv.
  destruct (Z.eqb_spec b 0) as [|_]; [contradiction|].
  destruct (a =? 0); eexists; reflexivity.
Qed.

(** The loop appends one pair per choice, in the order of the choices. *)
Lemma results_loop_spec (total_votes : Z) (choices : list Choice) :
  forall results,
  exists added,
    results_loop total_votes choices results = Ok (results ++ added)
    /\ map fst added = choices
    /\ Forall (fun cp => is_percent total_votes (votes (fst cp)) (snd cp)) added.
Proof.
  induction choices as [|choice rest IH]; intros results.
  - exists []. cbn. rewrite app_nil_r. repeat split. constructor.
  - cbn [results_loop]. unfold is_percent in *.
    destruct (total_votes >? 0) eqn:Hpos.
    + destruct (int_truediv_nonzero (votes choice) total_votes) as [ratio Hratio].
      { apply Z.gtb_lt in Hpos. lia. }
      rewrite Hratio. cbn [bind].
      destruct (IH (results ++ [(choice, Float (float_round (float_mul ratio 100) 1))]))
        as (added & Hloop & Hfst & Hall).
      exists ((choice, Float (float_round (float_mul ratio 100) 1)) :: added).
      rewrite Hloop, <- app_assoc. cbn. repeat split; [now rewrite Hfst|].
      constructor; [|assumption]. cbn. exists ratio. split; [assumption|reflexivity].
    + cbn [bind].
      destruct (IH (results ++ [(choice, Int 0)])) as (added & Hloop & Hfst & Hall).
      exists ((choice, Int 0) :: added).
      rewrite Hloop, <- app_assoc. cbn. repeat split; [now rewrite Hfst|].
      constructor; [reflexivity|assumption].
Qed.

Lemma ResultsView_db_after (db : DB) (pk : Z) : db_after (ResultsView db pk) = db.
Proof. reflexivity. Qed.

(** [get_context_data] always returns: one pair per choice of the
    question, in table order, each with its percentage. *)
Lemma ResultsView_get_context_data_returns (db : DB) (question : Question) :
  exists results,
    ResultsView_get_context_data db question = Ok results
    /\ map fst results = choice_set_all db question
    /\ Forall (fun cp => is_percent (sum (map votes (choice_set_all db question)))
                                    (votes (fst cp)) (snd cp)) results.
Proof.
  destruct (results_loop_spec (sum (map votes (choice_set_all db question)))
                              (choice_set_all db question) [])
    as (results & Hloop & Hfst & Hall).
  exists results. unfold ResultsView_get_context_data. cbn in Hloop.
  repeat split; assumption.
Qed.

(** C7. For every question the results are one (choice, percent) pair per
    choice of the question, in the order of the Choice table; the percent is
    [round(votes / total_votes * 100, 1)] when the total is positive and the
    int 0 for every choice otherwise; the computation never raises (no
    division by zero), and the view leaves the store as it was. *)
Theorem results_one_percent_per_choice (db : DB) (question : Question) :
  let choices := choice_set_all db question in
  let total_votes := sum (map votes choices) in
  (exists results,
      ResultsView_get_context_data db question = Ok results
      /\ map fst results = choices
      /\ Forall (fun cp => is_percent total_votes (votes (fst cp)) (snd cp)) results
      /\ (if total_votes >? 0 then True
          else Forall (fun cp => snd cp = Int 0) results))
  /\ (forall pk, db_after (ResultsView db pk) = db).
Proof.
  intros choices total_votes. split; [|intro pk; apply ResultsView_db_after].
  destruct (ResultsView_get_context_data_returns db question)
    as (results & Hres & Hfst & Hall).
  exists results. fold choices in Hfst, Hall. fold total_votes in Hall.
  repeat split; try assumption.
  unfold is_percent in Hall.
  destruct (total_votes >? 0); [exact I|exact Hall].
Qed.

(** One vote for Red and two for Blue: 33.3 and 66.7. *)
Example results_one_third_two_thirds :
  ResultsView_get_context_data db_counted color
  = Ok [(add_vote red, Float (decimal 333 1));
        (add_vote (add_vote blue), Float (decimal 667 1))].
Proof. vm_compute. reflexivity. Qed.

(** No vote at all: the int 0 for both choices. *)
Example results_without_votes :
  ResultsView_get_context_data db0 color = Ok [(red, Int 0); (blue, Int 0)].
Proof. vm_compute. reflexivity. Qed.

(** ** Question creation *)

Lemma lstrip_blank (s : pystr) : forallb isspace s = true -> lstrip s = [].
Proof.
  induction s as [|c s IH]; cbn; [reflexivity|].
  intros H. apply andb_true_iff in H as [Hc Hs]. rewrite Hc. now apply IH.
Qed.

(** A text of whitespace only is cleaned to the empty text. *)
Lemma strip_blank (s : pystr) : forallb isspace s = true -> strip s = [].
Proof.
  intros H. unfold strip, rstrip. rewrite (lstrip_blank s H). reflexivity.
Qed.

Lemma CharField_clean_Some (max_length : Z) (required : bool) (raw cleaned : pystr) :
  CharField_clean max_length required raw = Some cleaned -> cleaned = strip raw.
Proof.
  unfold CharField_clean. destruct (strip raw) as [|c rest].
  - destruct required; congruence.
  - destruct (_ && _); congruence.
Qed.

Lemma full_clean_Some (form : QuestionCreateForm) (cd : cleaned_data) :
  full_clean form = Some cd ->
  cleaned_question_text cd = strip (data_question_text form)
  /\ cleaned_choice1 cd = strip (data_choice1 form)
  /\ cleaned_choice2 cd = strip (data_choice2 form)
  /\ cleaned_choice3 cd = strip (data_choice3 form).
Proof.
  unfold full_clean.
  destruct (CharField_clean 200 true _) as [text|] eqn:Ht; [|discriminate].
  destruct (lifespan_days_clean _) as [days|]; [|discriminate].
  destruct (CharField_clean 200 false (data_choice1 form)) as [c1|] eqn:H1; [|discriminate].
  destruct (CharField_clean 200 false (data_choice2 form)) as [c2|] eqn:H2; [|discriminate].
  destruct (CharField_clean 200 false (data_choice3 form)) as [c3|] eqn:H3; [|discriminate].
  intros [= <-]. cbn.
  apply CharField_clean_Some in Ht, H1, H2, H3. repeat split; assumption.
Qed.

Lemma next_id_above (ids : list Z) (x : Z) : In x ids -> x < next_id ids.
Proof.
  unfold next_id. induction ids as [|a ids IH]; cbn [fold_right In]; [intros []|].
  intros [->|Hin]; [lia|]. specialize (IH Hin). lia.
Qed.

(** On a saved question the loop appends one Choice row per non-empty
    text, in order, and touches nothing else. *)
Lemma create_choices_saved (cd : cleaned_data) (q : Question) (indices : list Z) :
  forall db,
  exists db' added,
    create_choices indices db cd (Saved q) = Ok db'
    /\ auth_user db' = auth_user db
    /\ polls_userprofile db' = polls_userprofile db
    /\ polls_question db' = polls_question db
    /\ polls_vote db' = polls_vote db
    /\ polls_choice db' = polls_choice db ++ added
    /\ map choice_text added = filter truthy (texts_at cd indices)
    /\ Forall (fun c => Choice_question c = Question_id q /\ votes c = 0) added.
Proof.
  induction indices as [|i rest IH]; intros db.
  - exists db, []. cbn. rewrite app_nil_r. repeat split. constructor.
  - cbn [create_choices texts_at flat_map].
    destruct (cleaned_data_get_choice cd i) as [text|].
    + cbn [app filter]. destruct (truthy text) eqn:Htext.
      * cbn [Choice_objects_create bind].
        match goal with
        | |- context [create_choices rest ?d cd (Saved q)] =>
          destruct (IH d) as (db' & added & Hloop & Hu & Hp & Hq & Hv & Hc & Htexts & Hall)
        end.
        cbn in Hu, Hp, Hq, Hv, Hc.
        exists db'. eexists (_ :: added). rewrite Hloop.
        repeat split; try assumption.
        -- rewrite Hc, <- app_assoc. reflexivity.
        -- cbn. f_equal. exact Htexts.
        -- constructor; [split; reflexivity|assumption].
      * destruct (IH db) as (db' & added & H). exists db', added. exact H.
    + cbn [app]. destruct (IH db) as (db' & added & H). exists db', added. exact H.
Qed.

Lemma filter_none {A : Type} (f : A -> bool) (l : list A) :
  Forall (fun x => f x = false) l -> filter f l = [].
Proof.
  induction 1 as [|x l Hx _ IH]; cbn; [reflexivity|]. now rewrite Hx.
Qed.

Lemma filter_all {A : Type} (f : A -> bool) (l : list A) :
  Forall (fun x => f x = true) l -> filter f l = l.
Proof.
  induction 1 as [|x l Hx _ IH]; cbn; [reflexivity|]. rewrite Hx. now f_equal.
Qed.

(** On a valid form, [save(commit=True)] returns a saved question. *)
Lemma save_creates_choices (db : DB) (now : Z) (form : QuestionCreateForm) :
  is_valid form = true ->
  exists db' question,
    QuestionCreateForm_save db now form true = Ok (db', Saved question).
Proof.
  unfold is_valid, QuestionCreateForm_save.
  destruct (full_clean form) as [cd|]; [intros _|discriminate].
  cbn [Question_save].
  match goal with
  | |- context [create_choices ?idx ?d cd (Saved ?q)] =>
    destruct (create_choices_saved cd q idx d) as (db' & added & Hloop & _);
    exists db', q; rewrite Hloop
  end.
  reflexivity.
Qed.

(** C8. [QuestionCreateForm.save] on a valid form inserts the question and
    then one Choice per non-empty text among the three texts of the form,
    in the order choice1, choice2, choice3; a text that is empty or made of
    whitespace is cleaned to the empty text and no Choice is created for
    it.  The new choices belong to the new question and count no vote; when
    the Choice table respects its foreign key they are all its choices. *)
Theorem save_creates_one_choice_per_text (db : DB) (now : Z)
    (form : QuestionCreateForm) :
  is_valid form = true ->
  (exists db' question added,
      QuestionCreateForm_save db now form true = Ok (db', Saved question)
      /\ polls_question db' = polls_question db ++ [question]
      /\ polls_choice db' = polls_choice db ++ added
      /\ map choice_text added
         = filter truthy
                  (map strip [data_choice1 form; data_choice2 form; data_choice3 form])
      /\ Forall (fun c => Choice_question c = Question_id question /\ votes c = 0) added
      /\ (choices_reference_questions db -> choice_set_all db' question = added))
  /\ (forall raw, forallb isspace raw = true -> truthy (strip raw) = false).
Proof.
  intros Hvalid. split; [|intros raw Hraw; now rewrite strip_blank].
  unfold is_valid in Hvalid.
  destruct (full_clean form) as [cd|] eqn:Hclean; [clear Hvalid|discriminate].
  apply full_clean_Some in Hclean as Hcd. destruct Hcd as (_ & H1 & H2 & H3).
  unfold QuestionCreateForm_save. rewrite Hclean.
  change (range 1 4) with [1; 2; 3]. cbn [Question_save].
  match goal with
  | |- context [create_choices _ ?d cd (Saved ?q)] =>
    destruct (create_choices_saved cd q [1; 2; 3] d)
      as (db' & added & Hloop & _ & _ & Hq & _ & Hc & Htexts & Hall);
    exists db', q, added
  end.
  rewrite Hloop. cbn [bind]. cbn in Hq, Hc.
  repeat split; try assumption.
  - rewrite Htexts. cbn [texts_at flat_map cleaned_data_get_choice app map].
    now rewrite H1, H2, H3.
  - intros Hfk. unfold choice_set_all. rewrite Hc, filter_app.
    rewrite filter_none, filter_all; [reflexivity| |].
    + eapply Forall_impl; [|exact Hall]. cbn. intros c [Hcq _].
      apply Z.eqb_eq. exact Hcq.
    + eapply Forall_impl; [|exact Hfk]. cbn. intros c Hin.
      apply Z.eqb_neq. apply next_id_above in Hin. cbn [Question_id]. lia.
Qed.

(** The scenario: "Color?" with Red, an empty text and Blue gives a
    question with the two choices Red and Blue, in that order. *)
Lemma save_creates_one_choice_per_text_witness :
  (exists db' question added,
      QuestionCreateForm_save empty_db T0 color_form true = Ok (db', Saved question)
      /\ polls_question db' = polls_question empty_db ++ [question]
      /\ polls_choice db' = polls_choice empty_db ++ added
      /\ map choice_text added
         = filter truthy
                  (map strip [data_choice1 color_form; data_choice2 color_form;
                              data_choice3 color_form])
      /\ Forall (fun c => Choice_question c = Question_id question /\ votes c = 0) added
      /\ (choices_reference_questions empty_db -> choice_set_all db' question = added))
  /\ (forall raw, forallb isspace raw = true -> truthy (strip raw) = false).
Proof.
  apply (save_creates_one_choice_per_text empty_db T0 color_form). reflexivity.
Defined.

Example create_color_question :
  QuestionCreateForm_save empty_db T0 color_form true
  = Ok ({| auth_user := []; polls_userprofile := [];
           polls_question :=
             [{| Question_id := 1; question_text := lit "Color?"; pub_date := T0;
                 image := None; lifespan_days := 3 |}];
           polls_choice :=
             [{| Choice_id := 1; Choice_question := 1; choice_text := lit "Red";
                 votes := 0 |};
              {| Choice_id := 2; Choice_question := 1; choice_text := lit "Blue";
                 votes := 0 |}];
           polls_vote := [] |},
        Saved {| Question_id := 1; question_text := lit "Color?"; pub_date := T0;
                 image := None; lifespan_days := 3 |}).
Proof. vm_compute. reflexivity. Qed.

(** Blanks are skipped as the empty text is, and kept texts are stripped. *)
Example create_with_blank_text :
  option_map (fun r => map choice_text (polls_choice (fst r)))
             (match QuestionCreateForm_save empty_db T0 blank_form true with
              | Ok r => Some r
              | Raise _ => None
              end)
  = Some [lit "Red"; lit "Blue"].
Proof. vm_compute. reflexivity. Qed.

(** Without [commit] the question has no row, and the first non-empty text
    makes [Choice.objects.create] raise. *)
Example save_without_commit :
  QuestionCreateForm_save empty_db T0 color_form false = Raise ValueError.
Proof. vm_compute. reflexivity. Qed.

(** ** Profile deletion *)

Lemma user_profile_cases (db : DB) (u : User) :
  (List.length (profiles_of db (User_id u)) <= 1)%nat ->
  (user_profile db u = Raise DoesNotExist /\ profiles_of db (User_id u) = [])
  \/ exists p, user_profile db u = Ok p /\ profiles_of db (User_id u) = [p].
Proof.
  unfold user_profile, profiles_of.
  destruct (filter _ (polls_userprofile db)) as [|p [|p' rest]]; cbn; intros Hlen.
  - left. split; reflexivity.
  - right. exists p. split; reflexivity.
  - lia.
Qed.




(** The store that [profile_delete] leaves is the one after its last
    write, on every request. *)
Lemma profile_delete_db_after (db : DB) (request : HttpRequest) :
  db_after (profile_delete db request) = last (profile_delete_stores db request) db.
Proof.
  unfold profile_delete, profile_delete_stores.
  destruct (user request) as [u|]; [|reflexivity].
  destruct (method request); [reflexivity|].
  destruct (user_profile db u) as [p|[]]; reflexivity.
Qed.



(** The two stores that the deletion of alice's account goes through. *)
Example profile_delete_stores_with_profile :
  profile_delete_stores db_profile (post_by alice)
  = [ {| auth_user := [alice]; polls_userprofile := [];
         polls_question := [color];
         polls_choice := [add_vote red; blue];
         polls_vote :=
           [{| Vote_id := 1; Vote_user := 1; Vote_question := 1; Vote_choice := 1 |}] |};
      {| auth_user := []; polls_userprofile := [];
         polls_question := [color];
         polls_choice := [add_vote red; blue];
         polls_vote := [] |} ].
Proof. vm_compute. reflexivity. Qed.

Example profile_delete_without_profile :
  profile_delete db0 (post_by alice)
  = {| db_after := {| auth_user := []; polls_userprofile := [];
                      polls_question := [color]; polls_choice := [red; blue];
                      polls_vote := [] |};
       queued := [(SUCCESS, profile_deleted)];
       response := Ok (HttpResponseRedirect ("polls:index"%string, [])) |}.
Proof. vm_compute. reflexivity. Qed.

(** With a profile and a vote: both rows go with the account; the tally of
    the choice is not touched. *)
Example profile_delete_with_profile :
  profile_delete db_profile (post_by alice)
  = {| db_after := {| auth_user := []; polls_userprofile := [];
                      polls_question := [color];
                      polls_choice := [add_vote red; blue];
                      polls_vote := [] |};
       queued := [(SUCCESS, profile_deleted)];
       response := Ok (HttpResponseRedirect ("polls:index"%string, [])) |}.
Proof. vm_compute. reflexivity. Qed.

(** ** Expired questions *)

Lemma filter_by_Question_id (rows : list Question) (q : Question) :
  NoDup (map Question_id rows) -> In q rows ->
  filter (fun r => Question_id r =? Question_id q) rows = [q].
Proof.
  induction rows as [|a rows IH]; cbn; intros Hnd Hin; [destruct Hin|].
  apply NoDup_cons_iff in Hnd as [Hnotin Hnd].
  destruct Hin as [->|Hin].
  - rewrite Z.eqb_refl. f_equal. apply filter_none.
    apply Forall_forall. intros r Hr. apply Z.eqb_neq. intros E.
    apply Hnotin. rewrite <- E. now apply in_map.
  - destruct (Z.eqb_spec (Question_id a) (Question_id q)) as [E|E].
    + exfalso. apply Hnotin. rewrite E. now apply in_map.
    + now apply IH.
Qed.

Lemma get_object_or_404_found (rows : list Question) (q : Question) :
  NoDup (map Question_id rows) -> In q rows ->
  get_object_or_404 rows (Question_id q) = Ok (Some q).
Proof.
  intros Hnd Hin. unfold get_object_or_404.
  now rewrite filter_by_Question_id.
Qed.

(** C10. A question whose lifespan is over is still served by the detail
    and the results views: both look the question up among all the
    questions, without a test of [is_active], and answer with the page of
    the question; [vote] on it is refused with the "voting is over"
    message.  The primary key of the Question table is assumed unique. *)
Theorem expired_question_is_still_viewable (db : DB) (now : Z)
    (request : HttpRequest) (question : Question) :
  NoDup (map Question_id (polls_question db)) ->
  In question (polls_question db) ->
  is_active question now = Ok false ->
  DetailView_get_queryset db = polls_question db
  /\ DetailView db request (Question_id question)
     = {| db_after := db; queued := [];
          response :=
            Ok (render_detail question false
                              (DetailView_get_context_data db request question)) |}
  /\ (exists results,
         ResultsView db (Question_id question)
         = {| db_after := db; queued := [];
              response := Ok (render_results question results) |}
         /\ map fst results = choice_set_all db question)
  /\ (forall w,
         vote db now request (Question_id question) w
         = {| db_after := db; queued := [(ERROR, voting_is_over)];
              response := Ok (HttpResponseRedirect ("polls:index"%string, [])) |}).
Proof.
  intros Hpk Hin Hexp.
  pose proof (get_object_or_404_found _ _ Hpk Hin) as Hget.
  split; [reflexivity|]. split; [|split].
  - unfold DetailView, get_object, DetailView_get_queryset. rewrite Hget. reflexivity.
  - destruct (ResultsView_get_context_data_returns db question)
      as (results & Hres & Hfst & _).
    exists results. split; [|exact Hfst].
    unfold ResultsView, get_object. rewrite Hget. cbn [bind]. rewrite Hres. reflexivity.
  - intros w. unfold vote. rewrite Hget, Hexp. reflexivity.
Qed.

(** The seven-day question on the ninth day. *)
Lemma expired_question_is_still_viewable_witness :
  DetailView_get_queryset db_counted = polls_question db_counted
  /\ DetailView db_counted (post_by alice) (Question_id color)
     = {| db_after := db_counted; queued := [];
          response :=
            Ok (render_detail color false
                  (DetailView_get_context_data db_counted (post_by alice) color)) |}
  /\ (exists results,
         ResultsView db_counted (Question_id color)
         = {| db_after := db_counted; queued := [];
              response := Ok (render_results color results) |}
         /\ map fst results = choice_set_all db_counted color)
  /\ (forall w,
         vote db_counted (T0 + 8 * us_per_day) (post_by alice) (Question_id color) w
         = {| db_after := db_counted; queued := [(ERROR, voting_is_over)];
              response := Ok (HttpResponseRedirect ("polls:index"%string, [])) |}).
Proof.
  apply (expired_question_is_still_viewable db_counted (T0 + 8 * us_per_day)
           (post_by alice) color).
  - cbn. repeat constructor. intros [].
  - now left.
  - reflexivity.
Defined.

(** ** The key hypotheses are kept by the views *)

(** [vote] changes neither the Question table nor the keys of the Choice
    table: the uniqueness of the primary keys, assumed above, holds in every
    state reached from a store where it holds. *)
Lemma vote_keeps_primary_keys (db : DB) (now : Z) (request : HttpRequest)
    (question_id : Z) (w : write_outcome) :
  let db' := db_after (vote db now request question_id w) in
  polls_question db' = polls_question db
  /\ map Choice_id (polls_choice db') = map Choice_id (polls_choice db).
Proof.
  cbv zeta.
  destruct (vote_cases db now request question_id w)
    as [[-> _] | (u & question & c & db1 & _ & _ & _ & _ & Hv & Hw)];
    [split; reflexivity|].
  apply Vote_objects_create_Ok in Hv as (_ & _ & _ & Hq1 & Hc1 & _).
  destruct w as [|e].
  - destruct Hw as [Hsave _].
    apply Choice_save_Written in Hsave as (_ & _ & Hq2 & Hc2 & _).
    split; [congruence|]. rewrite Hc2, Hc1, map_map.
    apply map_ext. intros row.
    destruct (Z.eqb_spec (Choice_id row) (Choice_id (add_vote c))) as [E|_];
      [symmetry; exact E|reflexivity].
  - destruct Hw as [-> _]. split; [assumption|now rewrite Hc1].
Qed.

Lemma reachable_keeps_primary_keys (db0 db : DB) :
  reachable db0 db ->
  polls_question db = polls_question db0
  /\ map Choice_id (polls_choice db) = map Choice_id (polls_choice db0).
Proof.
  induction 1 as [|db now request question_id w _ [IHq IHc]]; [split; reflexivity|].
  destruct (vote_keeps_primary_keys db now request question_id w) as [Hq Hc].
  split; congruence.
Qed.

(** The view of question creation saves a valid form with [commit=True]. *)
Lemma question_create_saves (db : DB) (now : Z) (request : HttpRequest)
    (form : QuestionCreateForm) (u : User) :
  user request = Some u -> method request = POST -> is_valid form = true ->
  exists db' question,
    QuestionCreateForm_save db now form true = Ok (db', Saved question)
    /\ question_create db now request form
       = {| db_after := db';
            queued := [(SUCCESS, question_created (question_text question))];
            response := Ok (HttpResponseRedirect ("polls:index"%string, [])) |}.
Proof.
  intros Hu Hpost Hvalid.
  destruct (save_creates_choices db now form Hvalid) as (db' & question & Hsave).
  exists db', question. split; [assumption|].
  unfold question_create. rewrite Hu, Hpost, Hvalid, Hsave. reflexivity.
Qed.

(** * Further properties *)

(** ** The other branches of [vote] *)

Lemma filter_nil_iff {A : Type} (f : A -> bool) (l : list A) :
  filter f l = [] <-> forall x, In x l -> f x = false.
Proof.
  split.
  - intros Hnil x Hin. destruct (f x) eqn:Hfx; [|reflexivity].
    assert (Hx : In x (filter f l)) by (apply filter_In; split; assumption).
    rewrite Hnil in Hx. destruct Hx.
  - intros Hall. apply filter_none, Forall_forall. exact Hall.
Qed.

(** X1. A vote without a logged-in user on an active question is not
    redirected to a login page: [redirect('polls:login')] names a route
    that urls.py does not declare, the call ends in NoReverseMatch; nothing
    is stored. *)
Theorem vote_anonymous_no_login_route (db : DB) (now : Z) (request : HttpRequest)
    (w : write_outcome) (question : Question) :
  NoDup (map Question_id (polls_question db)) ->
  In question (polls_question db) ->
  is_active question now = Ok true ->
  user request = None ->
  vote db now request (Question_id question) w
  = {| db_after := db; queued := []; response := Raise NoReverseMatch |}.
Proof.
  intros Hpk Hin Hact Hanon. unfold vote.
  rewrite (get_object_or_404_found _ _ Hpk Hin), Hact, Hanon. reflexivity.
Qed.

Lemma vote_anonymous_no_login_route_witness :
  vote db0 T0 (anonymous_post 1) (Question_id color) Written
  = {| db_after := db0; queued := []; response := Raise NoReverseMatch |}.
Proof.
  apply (vote_anonymous_no_login_route db0 T0 (anonymous_post 1) Written color).
  - cbn. repeat constructor. intros [].
  - now left.
  - reflexivity.
  - reflexivity.
Defined.

(** X2. A vote that names no choice, or a key that is no choice of the
    question (a choice of another question included), stores nothing: the
    detail page of the question comes back with the error message and
    with [has_voted] computed for the user. *)
Theorem vote_rejects_foreign_choice (db : DB) (now : Z) (request : HttpRequest)
    (w : write_outcome) (question : Question) (u : User) :
  NoDup (map Question_id (polls_question db)) ->
  In question (polls_question db) ->
  is_active question now = Ok true ->
  user request = Some u ->
  (POST_choice request = Absent
   \/ exists pk, POST_choice request = Number pk
                 /\ forall c, In c (polls_choice db) -> Choice_id c = pk ->
                              Choice_question c <> Question_id question) ->
  vote db now request (Question_id question) w
  = {| db_after := db; queued := [];
       response := Ok (render_detail question true
                                     (exists_ (votes_of db (User_id u) (Question_id question)))) |}.
Proof.
  intros Hpk Hin Hact Hu Hchoice. unfold vote.
  rewrite (get_object_or_404_found _ _ Hpk Hin), Hact, Hu.
  unfold selected_choice_of.
  destruct Hchoice as [-> | (pk & -> & Hforeign)]; [reflexivity|].
  unfold choice_set_get, choice_set_all.
  replace (filter (fun c => Choice_id c =? pk) _) with (@nil Choice); [reflexivity|].
  symmetry. apply filter_nil_iff. intros c Hc.
  apply filter_In in Hc as [Hc Hq]. apply Z.eqb_eq in Hq.
  apply Z.eqb_neq. intros Hid. now apply (Hforeign c Hc Hid).
Qed.

(** Alice posts Circle, a choice of the other question, on Color. *)
Lemma vote_rejects_foreign_choice_witness :
  vote db_two T0 (post_choice alice 3) (Question_id color) Written
  = {| db_after := db_two; queued := [];
       response := Ok (render_detail color true
                         (exists_ (votes_of db_two (User_id alice) (Question_id color)))) |}.
Proof.
  apply (vote_rejects_foreign_choice db_two T0 (post_choice alice 3) Written color alice).
  - cbn. repeat constructor; cbn; intuition discriminate.
  - now left.
  - reflexivity.
  - reflexivity.
  - right. exists 3. split; [reflexivity|].
    intros c [<-|[<-|[<-|[]]]]; cbn; intros; discriminate.
Defined.

(** X3. A successful vote is what turns [has_voted] on: on the detail page
    of the question it is false for the voter before the call and true
    after it, and for every other user it is as before. *)
Theorem vote_success_sets_has_voted (db : DB) (now : Z) (request : HttpRequest)
    (question_id : Z) (w : write_outcome) (question : Question) :
  Question_id question = question_id ->
  queued (vote db now request question_id w) = [(SUCCESS, vote_counted)] ->
  let db' := db_after (vote db now request question_id w) in
  DetailView_get_context_data db request question = false
  /\ DetailView_get_context_data db' request question = true
  /\ (forall request' u u',
         user request = Some u -> user request' = Some u' ->
         User_id u' <> User_id u ->
         DetailView_get_context_data db' request' question
         = DetailView_get_context_data db request' question).
Proof.
  intros Hid Hok db'. subst db'.
  destruct (vote_cases db now request question_id w)
    as [[_ Hno] | (u & q & c & db1 & Hu & Hq & _ & _ & Hv & Hw)]; [contradiction|].
  destruct w as [|e]; [|destruct Hw as [_ Hno]; contradiction].
  destruct Hw as [Hsave _].
  apply get_object_or_404_Some in Hq as [_ Hqid].
  apply Vote_objects_create_Ok in Hv as (Hnone & _ & _ & _ & _ & Hv1).
  apply Choice_save_Written in Hsave as (_ & _ & _ & _ & Hv2).
  unfold DetailView_get_context_data, Vote_objects_filter.
  rewrite Hu, Hv2, Hv1, filter_app. unfold votes_of in Hnone.
  rewrite Hid, <- Hqid, Hnone. cbn. rewrite !Z.eqb_refl. cbn.
  repeat split.
  intros request' u0 u' Hu0 Hu' Hneq. injection Hu0 as <-.
  rewrite Hu', filter_app. cbn.
  destruct (Z.eqb_spec (User_id u) (User_id u')) as [E|_];
    [symmetry in E; contradiction|].
  cbn. now rewrite app_nil_r.
Qed.

Lemma vote_success_sets_has_voted_witness :
  DetailView_get_context_data db0 (post_choice alice 1) color = false
  /\ DetailView_get_context_data
       (db_after (vote db0 T0 (post_choice alice 1) 1 Written))
       (post_choice alice 1) color = true
  /\ (forall request' u u',
         user (post_choice alice 1) = Some u -> user request' = Some u' ->
         User_id u' <> User_id u ->
         DetailView_get_context_data
           (db_after (vote db0 T0 (post_choice alice 1) 1 Written)) request' color
         = DetailView_get_context_data db0 request' color).
Proof.
  apply (vote_success_sets_has_voted db0 T0 (post_choice alice 1) 1 Written color);
    reflexivity.
Defined.

(** X4. The detail and the results pages answer 404 exactly when no
    question has the key, and neither view writes to the store. *)
Theorem detail_and_results_404 (db : DB) (request : HttpRequest) (pk : Z) :
  (response (DetailView db request pk) = Ok Http404
   <-> ~ In pk (map Question_id (polls_question db)))
  /\ (response (ResultsView db pk) = Ok Http404
      <-> ~ In pk (map Question_id (polls_question db)))
  /\ db_after (DetailView db request pk) = db
  /\ db_after (ResultsView db pk) = db.
Proof.
  assert (Hnil : filter (fun q => Question_id q =? pk) (polls_question db) = []
                 <-> ~ In pk (map Question_id (polls_question db))).
  { rewrite filter_nil_iff. split.
    - intros Hall Hin. apply in_map_iff in Hin as (q & Hq & Hin).
      specialize (Hall q Hin). apply Z.eqb_neq in Hall. contradiction.
    - intros Hnot q Hin. apply Z.eqb_neq. intros Hq. apply Hnot.
      rewrite <- Hq. now apply in_map. }
  repeat split; try reflexivity; rewrite <- Hnil; cbn;
    unfold get_object, get_object_or_404, DetailView_get_queryset;
    destruct (filter (fun q => Question_id q =? pk) (polls_question db))
      as [|q [|q' rest]]; cbn; try congruence;
    destruct (ResultsView_get_context_data_returns db q) as (results & -> & _);
    cbn; congruence.
Qed.

(** ** Tallies and Vote rows *)

Lemma votes_for_after_insert (db db1 : DB) (v : Vote) (choice_id : Z) :
  polls_vote db1 = polls_vote db ++ [v] ->
  List.length (votes_for db1 choice_id)
  = (List.length (votes_for db choice_id)
     + if (Vote_choice v =? choice_id)%Z then 1 else 0)%nat.
Proof.
  intros Hv. unfold votes_for. rewrite Hv, filter_app, length_app. cbn.
  destruct (Vote_choice v =? choice_id); reflexivity.
Qed.

Lemma votes_for_same_votes (db db' : DB) (choice_id : Z) :
  polls_vote db' = polls_vote db -> votes_for db' choice_id = votes_for db choice_id.
Proof. intros Hv. unfold votes_for. now rewrite Hv. Qed.

(** One call of [vote] keeps "no tally above its Vote rows", whatever the
    engine answers to the UPDATE. *)
Lemma vote_keeps_tally_at_most_votes (db : DB) (now : Z) (request : HttpRequest)
    (question_id : Z) (w : write_outcome) :
  tally_at_most_votes db ->
  tally_at_most_votes (db_after (vote db now request question_id w)).
Proof.
  unfold tally_at_most_votes. intros Hinv.
  destruct (vote_cases db now request question_id w)
    as [[-> _] | (u & question & c & db1 & _ & _ & _ & Hc & Hv & Hw)];
    [assumption|].
  apply selected_choice_of_Ok in Hc as (_ & Hcin & _).
  apply Vote_objects_create_Ok in Hv as (_ & _ & _ & _ & Hc1 & Hv1).
  pose proof (proj1 (Forall_forall _ _) Hinv) as Hall.
  destruct w as [|e].
  - destruct Hw as [Hsave _].
    apply Choice_save_Written in Hsave as (_ & _ & _ & Hc2 & Hv2).
    rewrite Hc2, Hc1. apply Forall_map, Forall_forall. intros r Hr.
    destruct (Z.eqb_spec (Choice_id r) (Choice_id (add_vote c))) as [E|E].
    + rewrite (votes_for_same_votes db1 _ _ Hv2), (votes_for_after_insert db db1 _ _ Hv1).
      cbn. rewrite Z.eqb_refl. specialize (Hall c Hcin). cbn beta in Hall. lia.
    + rewrite (votes_for_same_votes db1 _ _ Hv2), (votes_for_after_insert db db1 _ _ Hv1).
      specialize (Hall r Hr). cbn beta in Hall. lia.
  - destruct Hw as [-> _]. rewrite Hc1. apply Forall_forall. intros r Hr.
    rewrite (votes_for_after_insert db db1 _ _ Hv1). specialize (Hall r Hr). cbn beta in Hall. lia.
Qed.

(** X5. Through any sequence of [vote] calls, with any answers of the
    engine to the UPDATEs, no choice ever counts more votes than there are
    Vote rows for it: a tally is only incremented after its row was
    inserted. *)
Theorem tally_never_exceeds_vote_rows (db0 db : DB) :
  tally_at_most_votes db0 -> reachable db0 db -> tally_at_most_votes db.
Proof.
  intros H0 Hr. induction Hr as [|db now request question_id w _ IH].
  - exact H0.
  - now apply vote_keeps_tally_at_most_votes.
Qed.

Lemma tally_never_exceeds_vote_rows_witness :
  tally_at_most_votes
    (db_after (vote (db_after (vote db0 T0 (post_choice alice 1) 1
                                    (Fails OperationalError)))
                    T0 (post_choice alice 2) 1 Written)).
Proof.
  apply (tally_never_exceeds_vote_rows db0).
  - repeat constructor; cbn; lia.
  - apply reachable_vote, reachable_vote, reachable_start.
Defined.

(** X6. When the UPDATE is carried out, a call of [vote] keeps the tallies
    equal to the numbers of Vote rows: if every choice counts exactly its
    rows before the call, so it does after it. *)
Theorem vote_keeps_tally_equal_to_vote_rows (db : DB) (now : Z)
    (request : HttpRequest) (question_id : Z) :
  tally_matches_votes db ->
  tally_matches_votes (db_after (vote db now request question_id Written)).
Proof.
  unfold tally_matches_votes. intros Hinv.
  destruct (vote_cases db now request question_id Written)
    as [[-> _] | (u & question & c & db1 & _ & _ & _ & Hc & Hv & Hsave & _)];
    [assumption|].
  apply selected_choice_of_Ok in Hc as (_ & Hcin & _).
  apply Vote_objects_create_Ok in Hv as (_ & _ & _ & _ & Hc1 & Hv1).
  pose proof (proj1 (Forall_forall _ _) Hinv) as Hall.
  apply Choice_save_Written in Hsave as (_ & _ & _ & Hc2 & Hv2).
  rewrite Hc2, Hc1. apply Forall_map, Forall_forall. intros r Hr.
  rewrite (votes_for_same_votes db1 _ _ Hv2), (votes_for_after_insert db db1 _ _ Hv1).
  destruct (Z.eqb_spec (Choice_id r) (Choice_id (add_vote c))) as [E|E].
  - cbn. rewrite Z.eqb_refl. specialize (Hall c Hcin). cbn beta in Hall. lia.
  - cbn [new_vote Vote_choice]. cbn in E.
    destruct (Z.eqb_spec (Choice_id c) (Choice_id r)) as [E'|_];
      [symmetry in E'; contradiction|].
    specialize (Hall r Hr). cbn beta in Hall. lia.
Qed.

Lemma vote_keeps_tally_equal_to_vote_rows_witness :
  tally_matches_votes (db_after (vote db0 T0 (post_choice alice 1) 1 Written)).
Proof.
  apply (vote_keeps_tally_equal_to_vote_rows db0 T0 (post_choice alice 1) 1).
  repeat constructor.
Defined.

(** X7. A call of [vote] on one question leaves the choices of every other
    question, and so its results page, as they were (the primary key of
    the Choice table being unique). *)
Theorem vote_leaves_other_questions (db : DB) (now : Z) (request : HttpRequest)
    (question_id : Z) (w : write_outcome) (other : Question) :
  NoDup (map Choice_id (polls_choice db)) ->
  Question_id other <> question_id ->
  let db' := db_after (vote db now request question_id w) in
  choice_set_all db' other = choice_set_all db other
  /\ ResultsView_get_context_data db' other = ResultsView_get_context_data db other.
Proof.
  intros Hpk Hother db'. subst db'.
  assert (Hsame : choice_set_all (db_after (vote db now request question_id w)) other
                  = choice_set_all db other).
  { destruct (vote_cases db now request question_id w)
      as [[-> _] | (u & question & c & db1 & _ & Hq & _ & Hc & Hv & Hw)];
      [reflexivity|].
    apply get_object_or_404_Some in Hq as [_ Hqid].
    apply selected_choice_of_Ok in Hc as (_ & Hcin & Hcq).
    apply Vote_objects_create_Ok in Hv as (_ & _ & _ & _ & Hc1 & _).
    unfold choice_set_all. destruct w as [|e].
    - destruct Hw as [Hsave _].
      apply Choice_save_Written in Hsave as (_ & _ & _ & Hc2 & _).
      destruct (update_by_primary_key (polls_choice db) c (add_vote c) Hpk Hcin eq_refl)
        as (before & after & Hsplit & Hmap).
      rewrite Hc2, Hc1, Hmap, Hsplit, !filter_app. cbn.
      replace (Choice_question c =? Question_id other) with false;
        [reflexivity|].
      symmetry. apply Z.eqb_neq. congruence.
    - destruct Hw as [-> _]. now rewrite Hc1. }
  split; [exact Hsame|].
  unfold ResultsView_get_context_data. now rewrite Hsame.
Qed.

(** Alice votes for Red on Color: the choices of Shape are as before. *)
Lemma vote_leaves_other_questions_witness :
  choice_set_all (db_after (vote db_two T0 (post_choice alice 1) 1 Written)) shape
  = choice_set_all db_two shape
  /\ ResultsView_get_context_data
       (db_after (vote db_two T0 (post_choice alice 1) 1 Written)) shape
     = ResultsView_get_context_data db_two shape.
Proof.
  apply (vote_leaves_other_questions db_two T0 (post_choice alice 1) 1 Written shape).
  - cbn. repeat constructor; cbn; intuition discriminate.
  - cbn. discriminate.
Defined.

(** ** The listing and the list of expired questions *)

Lemma insert_desc_perm (q : Question) (sorted : list Question) :
  Permutation (insert_desc q sorted) (q :: sorted).
Proof.
  induction sorted as [|q' rest IH]; cbn; [apply Permutation_refl|].
  destruct (pub_date q' <=? pub_date q); [apply Permutation_refl|].
  eapply perm_trans; [apply perm_skip, IH | apply perm_swap].
Qed.

Lemma insert_desc_sorted (q : Question) (sorted : list Question) :
  latest_first sorted -> latest_first (insert_desc q sorted).
Proof.
  unfold latest_first. induction 1 as [|q' rest Hrest IH Hhead]; cbn.
  - constructor; constructor.
  - destruct (Z.leb_spec (pub_date q') (pub_date q)) as [Hle|Hgt].
    + constructor; [constructor; assumption|].
      constructor; [assumption|].
      eapply Forall_impl; [|exact Hhead]. cbn. intros x Hx. lia.
    + constructor; [assumption|].
      apply (Permutation_Forall (Permutation_sym (insert_desc_perm q rest))).
      constructor; [lia|assumption].
Qed.

Lemma order_by_pub_date_desc_perm (rows : list Question) :
  Permutation (order_by_pub_date_desc rows) rows.
Proof.
  induction rows as [|q rows IH]; cbn; [constructor|].
  eapply perm_trans; [apply insert_desc_perm | now apply perm_skip].
Qed.

Lemma order_by_pub_date_desc_sorted (rows : list Question) :
  latest_first (order_by_pub_date_desc rows).
Proof.
  induction rows as [|q rows IH]; cbn; [constructor|].
  now apply insert_desc_sorted.
Qed.

(** Membership in the two lists. *)
Lemma listings_selected (db : DB) (now : Z) (q : Question) :
  (In q (IndexView_get_queryset db now)
   <-> In q (polls_question db) /\ index_where now q = true)
  /\ (In q (expired_questions db now)
      <-> In q (polls_question db) /\ expired_where now q = true).
Proof.
  unfold IndexView_get_queryset, expired_questions.
  split; split.
  - intros Hin. eapply Permutation_in in Hin; [|apply order_by_pub_date_desc_perm].
    now apply filter_In in Hin.
  - intros [Hin Hw]. eapply Permutation_in;
      [apply Permutation_sym, order_by_pub_date_desc_perm|].
    apply filter_In. now split.
  - intros Hin. eapply Permutation_in in Hin; [|apply order_by_pub_date_desc_perm].
    now apply filter_In in Hin.
  - intros [Hin Hw]. eapply Permutation_in;
      [apply Permutation_sym, order_by_pub_date_desc_perm|].
    apply filter_In. now split.
Qed.

(** X8. The listing and the staff's list of expired questions are the
    stored questions selected by their WHERE clause, each once, ordered by
    publication date, the latest first. *)
Theorem listings_are_sorted_selections (db : DB) (now : Z) :
  Permutation (IndexView_get_queryset db now)
              (filter (index_where now) (polls_question db))
  /\ latest_first (IndexView_get_queryset db now)
  /\ Permutation (expired_questions db now)
                 (filter (expired_where now) (polls_question db))
  /\ latest_first (expired_questions db now)
  /\ (forall q, In q (IndexView_get_queryset db now)
                <-> In q (polls_question db) /\ index_where now q = true)
  /\ (forall q, In q (expired_questions db now)
                <-> In q (polls_question db) /\ expired_where now q = true).
Proof.
  repeat match goal with |- _ /\ _ => split end.
  - apply order_by_pub_date_desc_perm.
  - apply order_by_pub_date_desc_sorted.
  - apply order_by_pub_date_desc_perm.
  - apply order_by_pub_date_desc_sorted.
  - intros q. apply (listings_selected db now q).
  - intros q. apply (listings_selected db now q).
Qed.

Lemma where_clauses_complement (now : Z) (q : Question) :
  match sqlite_datetime (pub_date q) (lifespan_days q) with
  | Some _ => index_where now q = negb (expired_where now q)
  | None => index_where now q = false /\ expired_where now q = false
  end.
Proof.
  unfold index_where, expired_where, text_gt, text_le.
  destruct (sqlite_datetime (pub_date q) (lifespan_days q)) as [s|]; cbn.
  - rewrite Z.gtb_ltb, Z.leb_antisym. now rewrite negb_involutive.
  - split; reflexivity.
Qed.

Lemma sqlite_datetime_after_9999 (q : Question) :
  datetime_max < expiry q ->
  sqlite_datetime (pub_date q) (lifespan_days q) = None.
Proof.
  unfold expiry, sqlite_datetime, datetime_max, us_per_day, us_per_second,
    ms_per_day, iJD_epoch, iJD_max.
  set (d := Z.of_N (lifespan_days q)). intros Hlate.
  pose proof (Z.div_mod (pub_date q + 500) 1000 ltac:(lia)) as Hdiv.
  pose proof (Z.mod_pos_bound (pub_date q + 500) 1000 ltac:(lia)) as Hmod.
  set (r := (pub_date q + 500) / 1000) in *.
  replace ((0 <=? r + d * 86400000 + 148731163200000)
           && (r + d * 86400000 + 148731163200000 <=? 464269060799999))
    with false; [reflexivity|].
  symmetry. apply andb_false_iff. right. apply Z.leb_gt. lia.
Qed.

(** X9. No question is both in the listing and in the list of expired
    questions; a question for which the SQL expression has a value is in
    one of the two; and a question whose lifespan ends after the year 9999
    (the SQL expression is NULL) is in neither list, at any time. *)
Theorem listing_and_expired_list (db : DB) (now : Z) (q : Question) :
  In q (polls_question db) ->
  ~ (In q (IndexView_get_queryset db now) /\ In q (expired_questions db now))
  /\ (sqlite_datetime (pub_date q) (lifespan_days q) <> None ->
      In q (IndexView_get_queryset db now) \/ In q (expired_questions db now))
  /\ (datetime_max < expiry q ->
      ~ In q (IndexView_get_queryset db now) /\ ~ In q (expired_questions db now)).
Proof.
  intros Hin.
  destruct (listings_selected db now q) as [Hlist Hexp].
  pose proof (where_clauses_complement now q) as Hcompl.
  split; [|split].
  - intros [H1 H2]. apply Hlist in H1 as [_ H1]. apply Hexp in H2 as [_ H2].
    destruct (sqlite_datetime _ _); [|destruct Hcompl; congruence].
    rewrite H1, H2 in Hcompl. discriminate.
  - intros Hsome. destruct (sqlite_datetime _ _); [|contradiction].
    destruct (expired_where now q) eqn:He.
    + right. apply Hexp. now split.
    + left. apply Hlist. now split.
  - intros Hlate. rewrite (sqlite_datetime_after_9999 q Hlate) in Hcompl.
    destruct Hcompl as [Hl He]. split.
    + intros H1. apply Hlist in H1 as [_ H1]. congruence.
    + intros H2. apply Hexp in H2 as [_ H2]. congruence.
Qed.

(** The question whose lifespan ends after 9999 is in neither list. *)
Lemma listing_and_expired_list_witness :
  ~ In forever (IndexView_get_queryset db_three T0)
  /\ ~ In forever (expired_questions db_three T0).
Proof.
  destruct (listing_and_expired_list db_three T0 forever) as (_ & _ & Hnever).
  - right. right. now left.
  - apply Hnever. reflexivity.
Defined.

(** X10. Away from the end of the lifespan the listing and [is_active]
    agree: they can differ only when the clock is within 1.0005 seconds
    before, or half a millisecond after, the instant
    [pub_date + lifespan_days days] (SQLite rounds the stored date to the
    millisecond and prints whole seconds). *)
Theorem listing_agrees_with_is_active_off_boundary (q : Question) (now : Z) :
  0 <= pub_date q ->
  expiry q + 500 <= datetime_max ->
  is_active q now <> Ok (index_where now q) ->
  expiry q - 1000500 < now < expiry q + 500.
Proof.
  intros Hpub Hmax Hdiff.
  rewrite is_active_in_range in Hdiff by lia.
  assert (Hneq : (now <=? expiry q) <> index_where now q) by congruence.
  clear Hdiff. revert Hneq.
  unfold index_where, sqlite_datetime, expiry, text_gt in *.
  unfold datetime_max, us_per_day, us_per_second, ms_per_day, iJD_epoch, iJD_max in *.
  set (d := Z.of_N (lifespan_days q)) in *.
  assert (Hd : 0 <= d) by (subst d; lia).
  pose proof (Z.div_mod (pub_date q + 500) 1000 ltac:(lia)) as Hr.
  pose proof (Z.mod_pos_bound (pub_date q + 500) 1000 ltac:(lia)) as Hrb.
  set (r := (pub_date q + 500) / 1000) in *.
  replace ((0 <=? r + d * 86400000 + 148731163200000)
           && (r + d * 86400000 + 148731163200000 <=? 464269060799999))
    with true by (symmetry; apply andb_true_iff; split; apply Z.leb_le; lia).
  cbn [option_map where_].
  pose proof (Z.div_mod (r + d * 86400000) 1000 ltac:(lia)) as Hs.
  pose proof (Z.mod_pos_bound (r + d * 86400000) 1000 ltac:(lia)) as Hsb.
  set (s := (r + d * 86400000) / 1000) in *.
  pose proof (Z.div_mod now 1000000 ltac:(lia)) as Hn.
  pose proof (Z.mod_pos_bound now 1000000 ltac:(lia)) as Hnb.
  set (n := now / 1000000) in *.
  destruct (Z.leb_spec now (pub_date q + d * (86400 * 1000000))) as [Hle|Hgt];
    destruct (Z.gtb_spec s n) as [Hlisted|Hnot]; intros Hneq;
    try congruence; lia.
Qed.

Lemma listing_agrees_with_is_active_off_boundary_witness :
  expiry color - 1000500 < T0 + 7 * us_per_day < expiry color + 500.
Proof.
  apply (listing_agrees_with_is_active_off_boundary color (T0 + 7 * us_per_day)).
  - vm_compute. discriminate.
  - vm_compute. discriminate.
  - vm_compute. discriminate.
Defined.



(** ** Deleting an account, and the lazily created profile *)

Lemma filter_filter_same {A : Type} (g h : A -> bool) (l : list A) :
  (forall x, In x l -> g x = true -> h x = true) ->
  filter g (filter h l) = filter g l.
Proof.
  induction l as [|a l IH]; cbn; intros Himp; [reflexivity|].
  assert (IH' : filter g (filter h l) = filter g l)
    by (apply IH; intros x Hx; apply Himp; now right).
  destruct (h a) eqn:Hh; cbn.
  - now rewrite IH'.
  - destruct (g a) eqn:Hg; [|exact IH'].
    rewrite (Himp a (or_introl eq_refl) Hg) in Hh. discriminate.
Qed.

Lemma same_key_same_profile (l : list UserProfile) (x y : UserProfile) :
  NoDup (map UserProfile_id l) -> In x l -> In y l ->
  UserProfile_id x = UserProfile_id y -> x = y.
Proof.
  induction l as [|a l IH]; cbn; intros Hnd Hx Hy Hid; [destruct Hx|].
  apply NoDup_cons_iff in Hnd as [Hnotin Hnd].
  destruct Hx as [->|Hx], Hy as [->|Hy].
  - reflexivity.
  - exfalso. apply Hnotin. rewrite Hid. now apply in_map.
  - exfalso. apply Hnotin. rewrite <- Hid. now apply in_map.
  - now apply IH.
Qed.

(** X11. Deleting an account removes the rows of that user and nothing
    else: the questions and the choices, tallies included, are as before
    (the votes the user cast stay counted although their Vote rows are
    gone), and the rows of the other users are kept, in their order. *)
Theorem profile_delete_removes_only_the_user (db : DB) (request : HttpRequest)
    (u : User) :
  user request = Some u ->
  method request = POST ->
  (List.length (profiles_of db (User_id u)) <= 1)%nat ->
  NoDup (map UserProfile_id (polls_userprofile db)) ->
  let db' := db_after (profile_delete db request) in
  polls_question db' = polls_question db
  /\ polls_choice db' = polls_choice db
  /\ auth_user db' = filter (fun x => negb (User_id x =? User_id u)) (auth_user db)
  /\ polls_userprofile db'
     = filter (fun p => negb (UserProfile_user p =? User_id u)) (polls_userprofile db)
  /\ polls_vote db' = filter (fun v => negb (Vote_user v =? User_id u)) (polls_vote db).
Proof.
  intros Hu Hpost Hone Hpk db'. subst db'. unfold profile_delete. rewrite Hu, Hpost.
  destruct (user_profile_cases db u Hone) as [[Hget _] | (p & Hget & Hp)];
    rewrite Hget; cbn; repeat split.
  apply filter_filter_same. intros x Hx Hother.
  apply negb_true_iff, Z.eqb_neq. intros Hid.
  assert (Hpin : In p (profiles_of db (User_id u))) by (rewrite Hp; now left).
  apply filter_In in Hpin as [Hpin Hpu].
  rewrite (same_key_same_profile _ x p Hpk Hx Hpin Hid), Hpu in Hother. discriminate.
Qed.

(** Alice deletes her account: Bob's rows stay, Red still counts her vote. *)
Lemma profile_delete_removes_only_the_user_witness :
  polls_question (db_after (profile_delete db_members (post_by alice)))
  = polls_question db_members
  /\ polls_choice (db_after (profile_delete db_members (post_by alice)))
     = polls_choice db_members
  /\ auth_user (db_after (profile_delete db_members (post_by alice)))
     = filter (fun x => negb (User_id x =? User_id alice)) (auth_user db_members)
  /\ polls_userprofile (db_after (profile_delete db_members (post_by alice)))
     = filter (fun p => negb (UserProfile_user p =? User_id alice))
              (polls_userprofile db_members)
  /\ polls_vote (db_after (profile_delete db_members (post_by alice)))
     = filter (fun v => negb (Vote_user v =? User_id alice)) (polls_vote db_members).
Proof.
  apply (profile_delete_removes_only_the_user db_members (post_by alice) alice).
  - reflexivity.
  - reflexivity.
  - cbn. lia.
  - cbn. repeat constructor; cbn; intuition discriminate.
Defined.

(** X12. [get_or_create] in [profile_edit] gives the user exactly one
    profile: the existing row, or a new one with an empty name and no
    avatar appended to the table; a row is created exactly when the user
    had none; afterwards [user.profile] finds the row, a second call
    returns it without creating anything, and a unique primary key stays
    unique. *)
Theorem get_or_create_gives_one_profile (db : DB) (u : User) :
  (List.length (profiles_of db (User_id u)) <= 1)%nat ->
  exists db' p created,
    UserProfile_objects_get_or_create db u = Ok (db', p, created)
    /\ created = negb (exists_ (profiles_of db (User_id u)))
    /\ (if created
        then polls_userprofile db' = polls_userprofile db ++ [p]
             /\ name p = [] /\ avatar p = None
        else db' = db)
    /\ profiles_of db' (User_id u) = [p]
    /\ user_profile db' u = Ok p
    /\ UserProfile_objects_get_or_create db' u = Ok (db', p, false)
    /\ auth_user db' = auth_user db /\ polls_question db' = polls_question db
    /\ polls_choice db' = polls_choice db /\ polls_vote db' = polls_vote db
    /\ (NoDup (map UserProfile_id (polls_userprofile db)) ->
        NoDup (map UserProfile_id (polls_userprofile db'))).
Proof.
  intros Hone.
  unfold UserProfile_objects_get_or_create, user_profile, profiles_of in *.
  destruct (filter (fun p => UserProfile_user p =? User_id u) (polls_userprofile db))
    as [|p [|p' rest]] eqn:Hf; cbn in Hone; [| |lia].
  - eexists _, _, true. split; [reflexivity|]. cbn.
    rewrite filter_app, Hf. cbn. rewrite Z.eqb_refl. cbn.
    repeat split.
    intros Hnd. rewrite map_app. cbn. apply NoDup_snoc; [assumption|].
    intros Hin. apply next_id_above in Hin. lia.
  - exists db, p, false. rewrite Hf. cbn. repeat split. intros Hnd. exact Hnd.
Qed.

(** Alice, who has no profile row, opens the profile editor. *)
Lemma get_or_create_gives_one_profile_witness :
  exists db' p created,
    UserProfile_objects_get_or_create db0 alice = Ok (db', p, created)
    /\ created = negb (exists_ (profiles_of db0 (User_id alice)))
    /\ (if created
        then polls_userprofile db' = polls_userprofile db0 ++ [p]
             /\ name p = [] /\ avatar p = None
        else db' = db0)
    /\ profiles_of db' (User_id alice) = [p]
    /\ user_profile db' alice = Ok p
    /\ UserProfile_objects_get_or_create db' alice = Ok (db', p, false)
    /\ auth_user db' = auth_user db0 /\ polls_question db' = polls_question db0
    /\ polls_choice db' = polls_choice db0 /\ polls_vote db' = polls_vote db0
    /\ (NoDup (map UserProfile_id (polls_userprofile db0)) ->
        NoDup (map UserProfile_id (polls_userprofile db'))).
Proof.
  apply (get_or_create_gives_one_profile db0 alice). cbn. lia.
Defined.

(** ** Cleaning of texts *)

Lemma lstrip_split (s : pystr) :
  exists blanks, s = blanks ++ lstrip s /\ forallb isspace blanks = true.
Proof.
  induction s as [|c s (blanks & Hs & Hb)]; cbn.
  - exists []. split; reflexivity.
  - destruct (isspace c) eqn:Hc.
    + exists (c :: blanks). cbn. rewrite Hc, Hb. split; [now f_equal|reflexivity].
    + exists []. split; reflexivity.
Qed.

Lemma lstrip_head (s : pystr) (c : N) (rest : pystr) :
  lstrip s = c :: rest -> isspace c = false.
Proof.
  induction s as [|a s IH]; cbn; [discriminate|].
  destruct (isspace a) eqn:Ha; [exact IH|].
  intros [= <- _]. exact Ha.
Qed.

Lemma lstrip_fixed (s : pystr) :
  match s with
  | [] => True
  | c :: _ => isspace c = false
  end -> lstrip s = s.
Proof. destruct s as [|c s]; cbn; [reflexivity|]. now intros ->. Qed.

(** A stripped text starts and ends with a character that is no
    whitespace: stripping it again changes nothing. *)
Lemma strip_ends (s : pystr) :
  lstrip (strip s) = strip s /\ lstrip (rev (strip s)) = rev (strip s).
Proof.
  unfold strip, rstrip. set (y := lstrip s).
  destruct (lstrip_split (rev y)) as (blanks & Hy & _).
  split.
  - apply lstrip_fixed.
    destruct (rev (lstrip (rev y))) as [|c rest] eqn:Hr; [exact I|].
    assert (Hyy : y = c :: rest ++ rev blanks).
    { rewrite <- (rev_involutive y), Hy, rev_app_distr, Hr. reflexivity. }
    subst y. exact (lstrip_head s c _ Hyy).
  - rewrite rev_involutive. apply lstrip_fixed.
    destruct (lstrip (rev y)) as [|c rest] eqn:Hr; [exact I|].
    exact (lstrip_head _ _ _ Hr).
Qed.

Lemma strip_strip (s : pystr) : strip (strip s) = strip s.
Proof.
  destruct (strip_ends s) as [Hl Hr]. unfold strip at 1, rstrip.
  rewrite Hl, Hr. apply rev_involutive.
Qed.

Lemma CharField_clean_stored (max_length : Z) (required : bool) (raw cleaned : pystr) :
  CharField_clean max_length required raw = Some cleaned ->
  (cleaned = [] /\ required = false) \/ stored_text_ok max_length cleaned.
Proof.
  unfold CharField_clean. pose proof (strip_strip raw) as Hss.
  destruct (strip raw) as [|c rest] eqn:Hs.
  - destruct required; [discriminate|]. intros [= <-]. now left.
  - destruct (Z.leb_spec (Z.of_nat (List.length (c :: rest))) max_length) as [Hlen|];
      [|discriminate].
    destruct (existsb (N.eqb 0) (c :: rest)) eqn:Hnul; [discriminate|].
    intros [= <-]. right. repeat split; try assumption; [discriminate|].
    intros Hin. assert (Hex : existsb (N.eqb 0) (c :: rest) = true).
    { apply existsb_exists. exists 0%N. split; [assumption|reflexivity]. }
    congruence.
Qed.

(** X13. Cleaning is idempotent: a text accepted by a form field is
    accepted unchanged when it is submitted again. *)
Theorem CharField_clean_idempotent (max_length : Z) (required : bool)
    (raw cleaned : pystr) :
  CharField_clean max_length required raw = Some cleaned ->
  CharField_clean max_length required cleaned = Some cleaned.
Proof.
  intros Hclean. pose proof (CharField_clean_Some _ _ _ _ Hclean) as Hstrip.
  subst cleaned. unfold CharField_clean in *. rewrite strip_strip. exact Hclean.
Qed.

Lemma CharField_clean_idempotent_witness :
  CharField_clean 200 false (lit "Blue") = Some (lit "Blue").
Proof.
  apply (CharField_clean_idempotent 200 false (lit " Blue ")). reflexivity.
Defined.

(** ** More on question creation *)

Lemma full_clean_fields (form : QuestionCreateForm) (cd : cleaned_data) :
  full_clean form = Some cd ->
  CharField_clean 200 true (data_question_text form) = Some (cleaned_question_text cd)
  /\ lifespan_days_clean (data_lifespan_days form) = Some (cleaned_lifespan_days cd)
  /\ CharField_clean 200 false (data_choice1 form) = Some (cleaned_choice1 cd)
  /\ CharField_clean 200 false (data_choice2 form) = Some (cleaned_choice2 cd)
  /\ CharField_clean 200 false (data_choice3 form) = Some (cleaned_choice3 cd)
  /\ cleaned_image cd = data_image form.
Proof.
  unfold full_clean.
  destruct (CharField_clean 200 true _) as [text|]; [|discriminate].
  destruct (lifespan_days_clean _) as [days|]; [|discriminate].
  destruct (CharField_clean 200 false (data_choice1 form)) as [c1|]; [|discriminate].
  destruct (CharField_clean 200 false (data_choice2 form)) as [c2|]; [|discriminate].
  destruct (CharField_clean 200 false (data_choice3 form)) as [c3|]; [|discriminate].
  intros [= <-]. cbn. repeat split.
Qed.

(** What [save(commit=True)] does to the store, on a valid form. *)
Lemma save_commit_shape (db : DB) (now : Z) (form : QuestionCreateForm)
    (cd : cleaned_data) :
  full_clean form = Some cd ->
  exists db' added,
    let question := {| Question_id := next_id (map Question_id (polls_question db));
                       question_text := cleaned_question_text cd;
                       pub_date := now;
                       image := cleaned_image cd;
                       lifespan_days := cleaned_lifespan_days cd |} in
    QuestionCreateForm_save db now form true = Ok (db', Saved question)
    /\ auth_user db' = auth_user db
    /\ polls_userprofile db' = polls_userprofile db
    /\ polls_question db' = polls_question db ++ [question]
    /\ polls_vote db' = polls_vote db
    /\ polls_choice db' = polls_choice db ++ added
    /\ map choice_text added
       = filter truthy [cleaned_choice1 cd; cleaned_choice2 cd; cleaned_choice3 cd]
    /\ Forall (fun c => Choice_question c = Question_id question /\ votes c = 0) added.
Proof.
  intros Hclean. unfold QuestionCreateForm_save. rewrite Hclean.
  change (range 1 4) with [1; 2; 3]. cbn [Question_save].
  match goal with
  | |- context [create_choices _ ?d cd (Saved ?q)] =>
    destruct (create_choices_saved cd q [1; 2; 3] d)
      as (db' & added & Hloop & Hu & Hp & Hq & Hv & Hc & Htexts & Hall)
  end.
  exists db', added. cbv zeta. rewrite Hloop. cbn in Hu, Hp, Hq, Hv, Hc.
  repeat split; assumption.
Qed.

(** X14. Every text that [save] stores, the text of the question and the
    texts of its choices, is non-empty, at most 200 characters long, free
    of NUL and without whitespace at either end. *)
Theorem save_stores_clean_texts (db : DB) (now : Z) (form : QuestionCreateForm) :
  is_valid form = true ->
  exists db' question added,
    QuestionCreateForm_save db now form true = Ok (db', Saved question)
    /\ polls_choice db' = polls_choice db ++ added
    /\ stored_text_ok 200 (question_text question)
    /\ Forall (fun c => stored_text_ok 200 (choice_text c)) added.
Proof.
  unfold is_valid. destruct (full_clean form) as [cd|] eqn:Hclean; [intros _|discriminate].
  destruct (save_commit_shape db now form cd Hclean)
    as (db' & added & Hsave & _ & _ & _ & _ & Hc & Htexts & _).
  apply full_clean_fields in Hclean as (Ht & _ & H1 & H2 & H3 & _).
  eexists db', _, added. split; [exact Hsave|]. split; [exact Hc|]. split.
  - cbn. apply CharField_clean_stored in Ht as [[_ Hreq]|Hok]; [discriminate|exact Hok].
  - apply Forall_map with (f := choice_text) (P := stored_text_ok 200).
    rewrite Htexts. apply Forall_forall. intros x Hx.
    apply filter_In in Hx as [Hx Htruthy].
    apply CharField_clean_stored in H1 as [[E1 _]|Hok1],
                                    H2 as [[E2 _]|Hok2],
                                    H3 as [[E3 _]|Hok3];
      destruct Hx as [<-|[<-|[<-|[]]]];
      try assumption;
      match goal with
      | E : ?c = [], T : truthy ?c = true |- _ => rewrite E in T; discriminate
      end.
Qed.

Lemma save_stores_clean_texts_witness :
  exists db' question added,
    QuestionCreateForm_save empty_db T0 blank_form true = Ok (db', Saved question)
    /\ polls_choice db' = polls_choice empty_db ++ added
    /\ stored_text_ok 200 (question_text question)
    /\ Forall (fun c => stored_text_ok 200 (choice_text c)) added.
Proof.
  apply (save_stores_clean_texts empty_db T0 blank_form). reflexivity.
Defined.

Lemma create_choices_keeps_keys (cd : cleaned_data) (q : Question)
    (indices : list Z) :
  forall db db',
    create_choices indices db cd (Saved q) = Ok db' ->
    NoDup (map Choice_id (polls_choice db)) ->
    NoDup (map Choice_id (polls_choice db')).
Proof.
  induction indices as [|i rest IH]; intros db db'; cbn [create_choices].
  - now intros [= <-].
  - destruct (cleaned_data_get_choice cd i) as [text|]; [|apply IH].
    destruct (truthy text); [|apply IH].
    cbn [Choice_objects_create bind]. intros Hloop Hnd.
    apply (IH _ _ Hloop). cbn. rewrite map_app. cbn.
    apply NoDup_snoc; [assumption|].
    intros Hin. apply next_id_above in Hin. lia.
Qed.

Lemma save_keeps_choice_keys (db : DB) (now : Z) (form : QuestionCreateForm)
    (cd : cleaned_data) :
  full_clean form = Some cd ->
  NoDup (map Choice_id (polls_choice db)) ->
  match QuestionCreateForm_save db now form true with
  | Ok (db0', question0) =>
    forall db' question, (db0', question0) = (db', question) ->
                         NoDup (map Choice_id (polls_choice db'))
  | Raise _ => True
  end.
Proof.
  intros Hclean Hnd. unfold QuestionCreateForm_save. rewrite Hclean.
  cbn [Question_save].
  match goal with
  | |- context [create_choices ?idx ?d cd (Saved ?q)] =>
    destruct (create_choices idx d cd (Saved q)) as [db1|e] eqn:Hloop; cbn; [|exact I];
    pose proof (create_choices_keeps_keys cd q idx d db1 Hloop Hnd) as Hnd1
  end.
  intros db' question [= <- _]. exact Hnd1.
Qed.

(** X15. Creating a question keeps the store well keyed: if the keys of
    the Question and Choice tables are unique and every choice refers to a
    stored question, the same holds afterwards; users, profiles and votes
    are not touched. *)
Theorem save_keeps_keys (db : DB) (now : Z) (form : QuestionCreateForm) :
  is_valid form = true ->
  NoDup (map Question_id (polls_question db)) ->
  NoDup (map Choice_id (polls_choice db)) ->
  choices_reference_questions db ->
  exists db' question,
    QuestionCreateForm_save db now form true = Ok (db', Saved question)
    /\ NoDup (map Question_id (polls_question db'))
    /\ NoDup (map Choice_id (polls_choice db'))
    /\ choices_reference_questions db'
    /\ auth_user db' = auth_user db
    /\ polls_userprofile db' = polls_userprofile db
    /\ polls_vote db' = polls_vote db.
Proof.
  unfold is_valid. destruct (full_clean form) as [cd|] eqn:Hclean; [intros _|discriminate].
  intros Hqk Hck Hfk.
  pose proof (save_keeps_choice_keys db now form cd Hclean Hck) as Hck'.
  destruct (save_commit_shape db now form cd Hclean)
    as (db' & added & Hsave & Hu & Hp & Hq & Hv & Hc & _ & Hall).
  cbv zeta in Hsave, Hq, Hall. rewrite Hsave in Hck'.
  eexists db', _. split; [exact Hsave|]. repeat split; try assumption.
  - rewrite Hq, map_app. cbn. apply NoDup_snoc; [assumption|].
    intros Hin. apply next_id_above in Hin. lia.
  - exact (Hck' db' _ eq_refl).
  - unfold choices_reference_questions in *. rewrite Hc, Hq, map_app.
    apply Forall_app. split.
    + eapply Forall_impl; [|exact Hfk]. cbn. intros c Hin.
      apply in_or_app. now left.
    + eapply Forall_impl; [|exact Hall]. cbn. intros c [Hcq _].
      apply in_or_app. right. left. now rewrite Hcq.
Qed.

Lemma save_keeps_keys_witness :
  exists db' question,
    QuestionCreateForm_save db0 T0 color_form true = Ok (db', Saved question)
    /\ NoDup (map Question_id (polls_question db'))
    /\ NoDup (map Choice_id (polls_choice db'))
    /\ choices_reference_questions db'
    /\ auth_user db' = auth_user db0
    /\ polls_userprofile db' = polls_userprofile db0
    /\ polls_vote db' = polls_vote db0.
Proof.
  apply (save_keeps_keys db0 T0 color_form).
  - reflexivity.
  - cbn. repeat constructor. intros [].
  - cbn. repeat constructor; cbn; intuition discriminate.
  - repeat constructor.
Defined.

(** X16. [save(commit=False)] on a valid form works only for a form
    without choices: when the three texts are empty or blank the unsaved
    question is returned and nothing is stored; as soon as one text is
    kept, creating its Choice for the question that has no row raises
    ValueError. *)
Theorem save_without_commit_allows_no_choice (db : DB) (now : Z)
    (form : QuestionCreateForm) :
  is_valid form = true ->
  match filter truthy
               (map strip [data_choice1 form; data_choice2 form; data_choice3 form]) with
  | [] => exists days,
          QuestionCreateForm_save db now form false
          = Ok (db, Unsaved (strip (data_question_text form)) (data_image form) days)
  | _ :: _ => QuestionCreateForm_save db now form false = Raise ValueError
  end.
Proof.
  unfold is_valid. destruct (full_clean form) as [cd|] eqn:Hclean; [intros _|discriminate].
  pose proof (full_clean_Some form cd Hclean) as (Ht & H1 & H2 & H3).
  pose proof (full_clean_fields form cd Hclean) as (_ & _ & _ & _ & _ & Himg).
  unfold QuestionCreateForm_save. rewrite Hclean.
  change (range 1 4) with [1; 2; 3].
  cbn [create_choices cleaned_data_get_choice map filter].
  rewrite H1, H2, H3, Ht, Himg.
  destruct (strip (data_choice1 form)); cbn; [|reflexivity].
  destruct (strip (data_choice2 form)); cbn; [|reflexivity].
  destruct (strip (data_choice3 form)); cbn; [|reflexivity].
  eexists. reflexivity.
Qed.

Lemma save_without_commit_allows_no_choice_witness :
  exists days,
    QuestionCreateForm_save db0 T0 bare_form false
    = Ok (db0, Unsaved (strip (data_question_text bare_form)) (data_image bare_form) days).
Proof.
  apply (save_without_commit_allows_no_choice db0 T0 bare_form). reflexivity.
Defined.

Lemma CharField_clean_too_long (required : bool) (raw : pystr) :
  200 < Z.of_nat (List.length (strip raw)) -> CharField_clean 200 required raw = None.
Proof.
  unfold CharField_clean. destruct (strip raw) as [|c rest]; [cbn; lia|].
  intros Hlong. destruct (Z.leb_spec (Z.of_nat (List.length (c :: rest))) 200); [lia|].
  reflexivity.
Qed.

Lemma full_clean_None (form : QuestionCreateForm) :
  CharField_clean 200 true (data_question_text form) = None
  \/ lifespan_days_clean (data_lifespan_days form) = None
  \/ CharField_clean 200 false (data_choice1 form) = None
  \/ CharField_clean 200 false (data_choice2 form) = None
  \/ CharField_clean 200 false (data_choice3 form) = None ->
  full_clean form = None.
Proof.
  unfold full_clean.
  intros [H|[H|[H|[H|H]]]]; rewrite H;
    repeat match goal with
           | |- context [match ?x with _ => _ end] => destruct x
           end; reflexivity.
Qed.

(** X17. Validation of the creation form is all or nothing: when one
    field is invalid (a blank or too long question text, a missing or
    negative lifespan, one choice text of more than 200 characters) the
    view stores nothing, neither the question nor the choices whose texts
    are valid, and queues no message. *)
Theorem question_create_stores_nothing_on_invalid_field (db : DB) (now : Z)
    (request : HttpRequest) (form : QuestionCreateForm) :
  strip (data_question_text form) = []
  \/ 200 < Z.of_nat (List.length (strip (data_question_text form)))
  \/ data_lifespan_days form = None
  \/ (exists n, data_lifespan_days form = Some n /\ n < 0)
  \/ 200 < Z.of_nat (List.length (strip (data_choice1 form)))
  \/ 200 < Z.of_nat (List.length (strip (data_choice2 form)))
  \/ 200 < Z.of_nat (List.length (strip (data_choice3 form))) ->
  is_valid form = false
  /\ db_after (question_create db now request form) = db
  /\ queued (question_create db now request form) = [].
Proof.
  intros Hbad.
  assert (Hinvalid : is_valid form = false).
  { unfold is_valid. rewrite full_clean_None; [reflexivity|].
    destruct Hbad as [H|[H|[H|[(n & H & Hneg)|[H|[H|H]]]]]].
    - left. unfold CharField_clean. now rewrite H.
    - left. now apply CharField_clean_too_long.
    - right. left. now rewrite H.
    - right. left. rewrite H. cbn. destruct (Z.leb_spec 0 n); [lia|reflexivity].
    - right. right. left. now apply CharField_clean_too_long.
    - right. right. right. left. now apply CharField_clean_too_long.
    - right. right. right. right. now apply CharField_clean_too_long. }
  split; [exact Hinvalid|].
  unfold question_create. rewrite Hinvalid.
  destruct (user request); [destruct (method request)|]; split; reflexivity.
Qed.

(** Red and Blue are fine, the third text is too long: nothing is stored. *)
Lemma question_create_stores_nothing_on_invalid_field_witness :
  is_valid long_form = false
  /\ db_after (question_create db0 T0 (post_by alice) long_form) = db0
  /\ queued (question_create db0 T0 (post_by alice) long_form) = [].
Proof.
  apply (question_create_stores_nothing_on_invalid_field db0 T0 (post_by alice) long_form).
  do 6 right. vm_compute. reflexivity.
Defined.



(** The question of the form with a lifespan of 0 days, one microsecond
    after its creation. *)
Example instant_question_expires_at_once :
  match QuestionCreateForm_save db0 T0 instant_form true with
  | Ok (_, Saved question) => Some (is_active question T0, is_active question (T0 + 1))
  | _ => None
  end = Some (Ok true, Ok false).
Proof. vm_compute. reflexivity. Qed.

(** ** [was_published_recently] *)

Lemma was_published_recently_in_range (q : Question) (now : Z) :
  us_per_day <= now <= datetime_max ->
  was_published_recently q now = Ok (now - us_per_day <=? pub_date q).
Proof.
  intros Hnow. unfold was_published_recently, datetime_sub, datetime_add.
  change (timedelta_days 1) with (Ok (1 * us_per_day)). cbn [bind]. cbv zeta.
  replace ((0 <=? now + - (1 * us_per_day))
           && (now + - (1 * us_per_day) <=? datetime_max)) with true.
  - cbn [bind]. rewrite Z.geb_leb. do 2 f_equal.
  - symmetry. apply andb_true_iff. split; apply Z.leb_le;
      unfold us_per_day, us_per_second, datetime_max in *; lia.
Qed.

(** X19. At a clock reading [now] from which one day can be subtracted,
    [was_published_recently] returns, for every question, whether
    [now - 1 day <= pub_date]: it holds from one day before the clock
    reading on, with no upper bound, so that a publication date in the
    future, however far, counts as recent.  And a recently published
    question with a lifespan of at least one day (ending within the range
    of [datetime]) is active. *)
Theorem recently_published_is_active (q : Question) (now : Z) :
  us_per_day <= now <= datetime_max ->
  was_published_recently q now = Ok (now - us_per_day <=? pub_date q)
  /\ (was_published_recently q now = Ok true <-> now - us_per_day <= pub_date q)
  /\ (now <= pub_date q -> was_published_recently q now = Ok true)
  /\ (0 <= pub_date q ->
      expiry q <= datetime_max ->
      (1 <= lifespan_days q)%N ->
      was_published_recently q now = Ok true ->
      is_active q now = Ok true).
Proof.
  intros Hnow.
  pose proof (was_published_recently_in_range q now Hnow) as Hrecent.
  split; [exact Hrecent|]. rewrite Hrecent. split; [|split].
  - split.
    + intros [= H]. now apply Z.leb_le.
    + intros H. f_equal. now apply Z.leb_le.
  - intros Hfuture. f_equal. apply Z.leb_le.
    unfold us_per_day, us_per_second. lia.
  - intros Hpub Hmax Hdays [= H]. apply Z.leb_le in H.
    rewrite is_active_in_range by assumption. f_equal. apply Z.leb_le.
    unfold expiry, us_per_day, us_per_second in *. lia.
Qed.

(** At [T0] the question dated one day later, with its lifespan of seven
    days, is recent, and active. *)
Lemma recently_published_is_active_witness :
  was_published_recently later T0 = Ok (T0 - us_per_day <=? pub_date later)
  /\ (was_published_recently later T0 = Ok true <-> T0 - us_per_day <= pub_date later)
  /\ was_published_recently later T0 = Ok true
  /\ is_active later T0 = Ok true.
Proof.
  destruct (recently_published_is_active later T0)
    as (Hequation & Hiff & Hfuture & Hactive).
  - vm_compute. split; discriminate.
  - assert (Hrecent : was_published_recently later T0 = Ok true).
    { apply Hfuture. vm_compute. discriminate. }
    split; [exact Hequation|]. split; [exact Hiff|]. split; [exact Hrecent|].
    apply Hactive.
    + vm_compute. discriminate.
    + vm_compute. discriminate.
    + vm_compute. discriminate.
    + exact Hrecent.
Defined.

(** A question dated tomorrow is "recently published", and active. *)
Example future_question_is_recent :
  was_published_recently later T0 = Ok true /\ is_active later T0 = Ok true.
Proof. split; reflexivity. Qed.

(** ** The lifecycle within the range of [datetime] *)

(** X20. For every question whose lifespan ends within the range of
    [datetime] (by 9999-12-31), [is_active] returns, at every clock
    reading, whether [now <= pub_date + lifespan_days days]: true at that
    instant exactly, false one microsecond later. *)
Theorem is_active_within_datetime_range (q : Question) :
  0 <= pub_date q ->
  expiry q <= datetime_max ->
  (forall now, is_active q now = Ok (now <=? expiry q))
  /\ is_active q (expiry q) = Ok true
  /\ is_active q (expiry q + 1) = Ok false.
Proof.
  intros Hpub Hmax. split; [|split].
  - intros now. now apply is_active_in_range.
  - rewrite is_active_in_range by assumption. f_equal. apply Z.leb_le. lia.
  - rewrite is_active_in_range by assumption. f_equal. apply Z.leb_gt. lia.
Qed.

Lemma is_active_within_datetime_range_witness :
  (forall now, is_active color now = Ok (now <=? expiry color))
  /\ is_active color (expiry color) = Ok true
  /\ is_active color (expiry color + 1) = Ok false.
Proof.
  apply (is_active_within_datetime_range color); vm_compute; discriminate.
Defined.

(** X21. For a question published on a whole second, the listing holds it
    exactly while [now < pub_date + lifespan_days days] and the staff's
    list of expired questions from that instant on: the two lists split
    the time line at the end of the lifespan, the instant itself counted
    as expired. *)
Theorem lists_split_time_at_expiry (q : Question) (now : Z) :
  0 <= pub_date q ->
  pub_date q mod us_per_second = 0 ->
  expiry q <= datetime_max ->
  index_where now q = (now <? expiry q)
  /\ expired_where now q = (expiry q <=? now).
Proof.
  intros Hpub Hsec Hmax.
  pose proof (index_where_whole_second q now Hpub Hsec Hmax) as Hindex.
  split; [exact Hindex|].
  pose proof (where_clauses_complement now q) as Hcompl.
  destruct (sqlite_datetime (pub_date q) (lifespan_days q)) as [s|] eqn:Hsql.
  - rewrite Hindex in Hcompl. rewrite Z.leb_antisym.
    destruct (expired_where now q), (now <? expiry q); cbn in *; congruence.
  - exfalso. revert Hsql.
    unfold sqlite_datetime, expiry, datetime_max, us_per_day, us_per_second,
      ms_per_day, iJD_epoch, iJD_max in *.
    set (d := Z.of_N (lifespan_days q)) in *.
    assert (Hd : 0 <= d) by (subst d; lia).
    pose proof (Z.div_mod (pub_date q + 500) 1000 ltac:(lia)) as Hr.
    pose proof (Z.mod_pos_bound (pub_date q + 500) 1000 ltac:(lia)) as Hrb.
    pose proof (Z.div_mod (pub_date q) 1000000 ltac:(lia)) as Hk.
    rewrite Hsec, Z.add_0_r in Hk.
    set (r := (pub_date q + 500) / 1000) in *.
    replace ((0 <=? r + d * 86400000 + 148731163200000)
             && (r + d * 86400000 + 148731163200000 <=? 464269060799999))
      with true; [discriminate|].
    symmetry. apply andb_true_iff. split; apply Z.leb_le; lia.
Qed.

Lemma lists_split_time_at_expiry_witness :
  index_where (expiry color) color = (expiry color <? expiry color)
  /\ expired_where (expiry color) color = (expiry color <=? expiry color).
Proof.
  apply (lists_split_time_at_expiry color (expiry color)).
  - vm_compute. discriminate.
  - reflexivity.
  - vm_compute. discriminate.
Defined.

(** ** What [vote] never touches *)

Lemma vote_step_touches_tallies_only (db : DB) (now : Z) (request : HttpRequest)
    (question_id : Z) (w : write_outcome) :
  NoDup (map Choice_id (polls_choice db)) ->
  let db' := db_after (vote db now request question_id w) in
  auth_user db' = auth_user db
  /\ polls_userprofile db' = polls_userprofile db
  /\ polls_question db' = polls_question db
  /\ map (fun c => (Choice_id c, Choice_question c, choice_text c)) (polls_choice db')
     = map (fun c => (Choice_id c, Choice_question c, choice_text c)) (polls_choice db).
Proof.
  intros Hpk. cbv zeta.
  destruct (vote_cases db now request question_id w)
    as [[-> _] | (u & question & c & db1 & _ & _ & _ & Hc & Hv & Hw)];
    [repeat split|].
  apply selected_choice_of_Ok in Hc as (_ & Hcin & _).
  apply Vote_objects_create_Ok in Hv as (_ & Hu1 & Hp1 & Hq1 & Hc1 & _).
  destruct w as [|e].
  - destruct Hw as [Hsave _].
    apply Choice_save_Written in Hsave as (Hu2 & Hp2 & Hq2 & Hc2 & _).
    destruct (update_by_primary_key (polls_choice db) c (add_vote c) Hpk Hcin eq_refl)
      as (before & after & Hsplit & Hmap).
    repeat split; try congruence.
    rewrite Hc2, Hc1, Hmap, Hsplit, !map_app. reflexivity.
  - destruct Hw as [-> _]. repeat split; congruence.
Qed.

(** X22. Whatever the sequence of [vote] calls and of answers of the
    engine, users, profiles and questions stay as they were, and so do
    the rows of the Choice table up to their tallies: no choice is added,
    removed, renamed or moved to another question (the primary key of the
    Choice table being unique at the start). *)
Theorem vote_touches_tallies_only (db0 db : DB) :
  NoDup (map Choice_id (polls_choice db0)) ->
  reachable db0 db ->
  auth_user db = auth_user db0
  /\ polls_userprofile db = polls_userprofile db0
  /\ polls_question db = polls_question db0
  /\ map (fun c => (Choice_id c, Choice_question c, choice_text c)) (polls_choice db)
     = map (fun c => (Choice_id c, Choice_question c, choice_text c)) (polls_choice db0).
Proof.
  intros Hpk Hr. induction Hr as [|db now request question_id w Hr (Hu & Hp & Hq & Hc)].
  - repeat split.
  - assert (Hpk' : NoDup (map Choice_id (polls_choice db))).
    { destruct (reachable_keeps_primary_keys db0 db Hr) as [_ Hids]. now rewrite Hids. }
    destruct (vote_step_touches_tallies_only db now request question_id w Hpk')
      as (Hu' & Hp' & Hq' & Hc').
    repeat split; congruence.
Qed.

Lemma vote_touches_tallies_only_witness :
  auth_user (db_after (vote db0 T0 (post_choice alice 1) 1 Written)) = auth_user db0
  /\ polls_userprofile (db_after (vote db0 T0 (post_choice alice 1) 1 Written))
     = polls_userprofile db0
  /\ polls_question (db_after (vote db0 T0 (post_choice alice 1) 1 Written))
     = polls_question db0
  /\ map (fun c => (Choice_id c, Choice_question c, choice_text c))
         (polls_choice (db_after (vote db0 T0 (post_choice alice 1) 1 Written)))
     = map (fun c => (Choice_id c, Choice_question c, choice_text c)) (polls_choice db0).
Proof.
  apply (vote_touches_tallies_only db0).
  - cbn. repeat constructor; cbn; intuition discriminate.
  - apply reachable_vote, reachable_start.
Defined.
